(** * User-management service: embedding of app/crud.py, app/schemas.py and
    app/main.py, with the properties of the specification proved on it.

    Python values are embedded as follows: [str] is a Rocq [string] holding
    the UTF-8 bytes of the text, [int] is [Z], [bool] is [bool], [None] is
    the [VNone] constructor of [PyVal] (or [None] of an option where the
    source annotates [Optional]).  Functions that use the database session
    thread the store explicitly and return either a value or the exception
    they raise. *)

From Stdlib Require Import ZArith Ascii String List Lia Bool.
From stdpp Require Import base decidable option list sorting gmap strings pretty.

Set Warnings "-register-all".

Local Open Scope string_scope.
Local Open Scope list_scope.
Local Open Scope Z_scope.

(** ** hashlib.sha256 (FIPS 180-4), on 32-bit words held in [Z] *)

Module SHA256.

Definition w32 (x : Z) : Z := x mod 2 ^ 32.

Definition add32 (x y : Z) : Z := w32 (x + y).

Definition rotr (n x : Z) : Z :=
  Z.lor (Z.shiftr x n) (w32 (Z.shiftl x (32 - n))).

Definition Ch (x y z : Z) : Z :=
  Z.lxor (Z.land x y) (Z.land (w32 (Z.lnot x)) z).

Definition Maj (x y z : Z) : Z :=
  Z.lxor (Z.lxor (Z.land x y) (Z.land x z)) (Z.land y z).

Definition Sigma0 (x : Z) : Z :=
  Z.lxor (Z.lxor (rotr 2 x) (rotr 13 x)) (rotr 22 x).

Definition Sigma1 (x : Z) : Z :=
  Z.lxor (Z.lxor (rotr 6 x) (rotr 11 x)) (rotr 25 x).

Definition sigma0 (x : Z) : Z :=
  Z.lxor (Z.lxor (rotr 7 x) (rotr 18 x)) (Z.shiftr x 3).

Definition sigma1 (x : Z) : Z :=
  Z.lxor (Z.lxor (rotr 17 x) (rotr 19 x)) (Z.shiftr x 10).

(** The round constants are the first 32 bits of the fractional parts of
    the cube roots of the first 64 primes; the initial hash value is the
    same for the square roots of the first 8 primes. *)
Definition primes : list Z :=
  [ 2; 3; 5; 7; 11; 13; 17; 19; 23; 29; 31; 37; 41; 43; 47; 53;
    59; 61; 67; 71; 73; 79; 83; 89; 97; 101; 103; 107; 109; 113; 127; 131;
    137; 139; 149; 151; 157; 163; 167; 173; 179; 181; 191; 193; 197; 199;
    211; 223; 227; 229; 233; 239; 241; 251; 257; 263; 269; 271; 277; 281;
    283; 293; 307; 311 ].

(** Integer cube root of a number below [2 ^ (3 * bits)]. *)
Fixpoint cbrt_bits (bits : nat) (n r : Z) : Z :=
  match bits with
  | O => r
  | S b =>
      let r' := r + 2 ^ Z.of_nat b in
      cbrt_bits b n (if r' * r' * r' <=? n then r' else r)
  end.

Definition frac_cbrt (p : Z) : Z := w32 (cbrt_bits 36 (p * 2 ^ 96) 0).

Definition frac_sqrt (p : Z) : Z := w32 (Z.sqrt (p * 2 ^ 64)).

Definition K : list Z := Eval vm_compute in map frac_cbrt primes.

(** The eight working variables a..h, also the running hash value. *)
Record state := mkState {
  sa : Z; sb : Z; sc : Z; sd : Z; se : Z; sf : Z; sg : Z; sh : Z }.

Definition H0 : state :=
  Eval vm_compute in
    mkState (frac_sqrt 2) (frac_sqrt 3) (frac_sqrt 5) (frac_sqrt 7)
            (frac_sqrt 11) (frac_sqrt 13) (frac_sqrt 17) (frac_sqrt 19).

(** Padding: a 1 bit, zero bits up to 56 mod 64 bytes, then the bit length
    as a 64-bit big-endian integer. *)
Fixpoint be_bytes (n : nat) (x : Z) : list Z :=
  match n with
  | O => []
  | S n' => (Z.shiftr x (8 * Z.of_nat n')) mod 256 :: be_bytes n' x
  end.

Definition pad (msg : list Z) : list Z :=
  let len := Z.of_nat (length msg) in
  let zeros := Z.to_nat ((55 - len) mod 64) in
  msg ++ 0x80 :: repeat 0 zeros ++ be_bytes 8 (8 * len).

Fixpoint be_words (n : nat) (bs : list Z) : list Z :=
  match n with
  | O => []
  | S n' =>
      match bs with
      | b0 :: b1 :: b2 :: b3 :: rest =>
          Z.lor (Z.lor (Z.lor (Z.shiftl b0 24) (Z.shiftl b1 16)) (Z.shiftl b2 8)) b3
          :: be_words n' rest
      | _ => []
      end
  end.

(** Message schedule; [w] holds W[t-1], W[t-2], ... (most recent first). *)
Fixpoint extend (n : nat) (w : list Z) : list Z :=
  match n with
  | O => w
  | S n' =>
      let wt := add32 (add32 (add32 (sigma1 (nth 1 w 0)) (nth 6 w 0))
                             (sigma0 (nth 14 w 0))) (nth 15 w 0) in
      extend n' (wt :: w)
  end.

Definition schedule (block : list Z) : list Z :=
  rev (extend 48 (rev (be_words 16 block))).

Definition round (s : state) (kw : Z * Z) : state :=
  let t1 := add32 (add32 (add32 (add32 (sh s) (Sigma1 (se s)))
                                (Ch (se s) (sf s) (sg s))) (fst kw)) (snd kw) in
  let t2 := add32 (Sigma0 (sa s)) (Maj (sa s) (sb s) (sc s)) in
  mkState (add32 t1 t2) (sa s) (sb s) (sc s) (add32 (sd s) t1) (se s) (sf s) (sg s).

Definition compress (h : state) (block : list Z) : state :=
  let s := fold_left round (combine K (schedule block)) h in
  mkState (add32 (sa h) (sa s)) (add32 (sb h) (sb s))
          (add32 (sc h) (sc s)) (add32 (sd h) (sd s))
          (add32 (se h) (se s)) (add32 (sf h) (sf s))
          (add32 (sg h) (sg s)) (add32 (sh h) (sh s)).

Fixpoint blocks (n : nat) (bs : list Z) : list (list Z) :=
  match n with
  | O => []
  | S n' => firstn 64 bs :: blocks n' (skipn 64 bs)
  end.

Definition digest (msg : list Z) : state :=
  let p := pad msg in
  fold_left compress (blocks (Nat.div (length p) 64) p) H0.

Definition hex_digit (x : Z) : ascii :=
  if x <? 10 then ascii_of_N (Z.to_N (48 + x)) else ascii_of_N (Z.to_N (87 + x)).

Definition hex_word (x : Z) (rest : string) : string :=
  String (hex_digit (Z.shiftr x 28 mod 16))
 (String (hex_digit (Z.shiftr x 24 mod 16))
 (String (hex_digit (Z.shiftr x 20 mod 16))
 (String (hex_digit (Z.shiftr x 16 mod 16))
 (String (hex_digit (Z.shiftr x 12 mod 16))
 (String (hex_digit (Z.shiftr x 8 mod 16))
 (String (hex_digit (Z.shiftr x 4 mod 16))
 (String (hex_digit (x mod 16)) rest))))))).

Definition hex_state (s : state) : string :=
  hex_word (sa s) (hex_word (sb s) (hex_word (sc s) (hex_word (sd s)
 (hex_word (se s) (hex_word (sf s) (hex_word (sg s) (hex_word (sh s) ""))))))).

(** [str.encode()]: the UTF-8 bytes of the text. *)
Fixpoint encode (s : string) : list Z :=
  match s with
  | EmptyString => []
  | String c s' => Z.of_N (N_of_ascii c) :: encode s'
  end.

Definition hexdigest (s : string) : string := hex_state (digest (encode s)).

End SHA256.

(** ** Python values and dictionaries *)

Inductive PyVal :=
| VNone
| VStr (s : string)
| VBool (b : bool).

#[global] Instance PyVal_eq_dec : EqDecision PyVal.
Proof. solve_decision. Defined.

(** A [dict] keeps its items in insertion order, one item per key. *)
Definition dict : Type := list (string * PyVal).

Fixpoint dict_get (k : string) (d : dict) : option PyVal :=
  match d with
  | [] => None
  | (k', v) :: d' => if decide (k' = k) then Some v else dict_get k d'
  end.

(** [k in d] *)
Definition dict_in (k : string) (d : dict) : bool :=
  bool_decide (is_Some (dict_get k d)).

(** The dictionary left by [d.pop(k)]. *)
Fixpoint dict_pop (k : string) (d : dict) : dict :=
  match d with
  | [] => []
  | (k', v) :: d' => if decide (k' = k) then d' else (k', v) :: dict_pop k d'
  end.

(** [d[k] = v]: replaces the value of an existing key in place, appends a
    new key at the end. *)
Fixpoint dict_set (k : string) (v : PyVal) (d : dict) : dict :=
  match d with
  | [] => [(k, v)]
  | (k', v') :: d' =>
      if decide (k' = k) then (k, v) :: d' else (k', v') :: dict_set k v d'
  end.

(** ** Exceptions and results *)

(** A bound declared on a query parameter, [ge] or [le]. *)
Inductive Bound :=
| Ge (n : Z)
| Le (n : Z).

#[global] Instance Bound_eq_dec : EqDecision Bound.
Proof. solve_decision. Defined.

(** One query parameter that fails its declaration: its name, the value
    received and the bound it violates. *)
Record Issue := mkIssue {
  issue_param : string;
  issue_input : Z;
  issue_bound : Bound }.

#[global] Instance Issue_eq_dec : EqDecision Issue.
Proof. solve_decision. Defined.

Inductive Exn :=
| AttributeError
| IntegrityError
| RequestValidationError (errors : list Issue)
| HTTPException (status_code : Z) (detail : string).

#[global] Instance Exn_eq_dec : EqDecision Exn.
Proof. solve_decision. Defined.

Inductive Res (A : Type) :=
| Ok (a : A)
| Raise (e : Exn).

Arguments Ok {A} a.
Arguments Raise {A} e.

(** ** app/models.py: the users table *)

Module models.

(** Modelled from the spec: app/models.py, which declares the ORM class
    [User] and its columns, is not part of the sources.  The columns are
    those of the data model (section 3); crud.py and the tests name the
    same attributes.  Timestamps are instants of the store's clock. *)
Record User := mkUser {
  id : Z;
  email : string;
  hashed_password : string;
  is_active : bool;
  created_at : Z;
  updated_at : option Z }.

#[global] Instance User_eq_dec : EqDecision User.
Proof. solve_decision. Defined.

(** The database: the rows of the table in insertion (primary-key) order,
    the next id the store assigns, and the store's clock. *)
Record Db := mkDb {
  rows : list User;
  next_id : Z;
  clock : Z }.

Definition empty : Db := mkDb [] 1 0.

(** Time passing between two requests: the clock does not run backwards. *)
Definition tick (dt : N) (db : Db) : Db :=
  mkDb (rows db) (next_id db) (clock db + Z.of_N dt).

(** A [User] instance held by the session.  Its [email] and
    [hashed_password] hold what [setattr] assigned, a string or [None],
    until the next commit.  Its [is_active] is a boolean, as the column of
    the data model is: the one assignment to it in the sources,
    in crud.update_user, assigns the boolean of a [UserUpdate]. *)
Record Instance := mkInstance {
  i_id : Z;
  i_email : PyVal;
  i_hashed_password : PyVal;
  i_is_active : bool }.

#[global] Instance Instance_eq_dec : EqDecision Instance.
Proof. solve_decision. Defined.

Definition load (u : User) : Instance :=
  mkInstance (id u) (VStr (email u)) (VStr (hashed_password u)) (is_active u).

(** [setattr(db_user, field, value)] for the fields crud.update_user
    assigns: [email], [hashed_password] and [is_active], the last with the
    boolean that [model_dump] gives it.  No other field and no other value
    for [is_active] reaches it. *)
Definition setattr (o : Instance) (field : string) (value : PyVal) : Instance :=
  if decide (field = "email") then
    mkInstance (i_id o) value (i_hashed_password o) (i_is_active o)
  else if decide (field = "hashed_password") then
    mkInstance (i_id o) (i_email o) value (i_is_active o)
  else if decide (field = "is_active") then
    match value with
    | VBool b => mkInstance (i_id o) (i_email o) (i_hashed_password o) b
    | _ => o
    end
  else o.

(** Modelled from the spec: [insert] of section 4.1, the missing table
    declaration of app/models.py.  "fails with a UniqueConstraintViolation
    if email already exists; otherwise assigns id, created_at,
    is_active=true, updated_at=absent". *)
Definition insert (e h : string) (db : Db) : Res User * Db :=
  if decide (e ∈ email <$> rows db) then (Raise IntegrityError, db)
  else
    let u := mkUser (next_id db) e h true (clock db) None in
    (Ok u, mkDb (rows db ++ [u]) (next_id db + 1) (clock db)).

(** The row written by an UPDATE of the row [r] from the instance values. *)
Definition write (e h : string) (a : bool) (now : Z) (r : User) : User :=
  mkUser (id r) e h a (created_at r) (Some now).

(** Modelled from the spec: [update] of section 4.1, the missing table
    declaration of app/models.py.  An UPDATE writes the instance's
    attributes to the row with its id, "sets updated_at to the current
    time" and "leaves created_at untouched".  The required columns [email]
    and [hashed_password] refuse a value that is not a string (a null), and
    [email] refuses the email of another row (tests/test_models.py has the
    three refusals); nothing is written then. *)
Definition update (o : Instance) (db : Db) : Res unit * Db :=
  match i_email o, i_hashed_password o with
  | VStr e, VStr h =>
      if decide (Exists (λ r, email r = e ∧ id r ≠ i_id o) (rows db))
      then (Raise IntegrityError, db)
      else
        (Ok tt,
         mkDb ((λ r, if decide (id r = i_id o)
                     then write e h (i_is_active o) (clock db) r else r)
                 <$> rows db)
              (next_id db) (clock db))
  | _, _ => (Raise IntegrityError, db)
  end.

(** Modelled from the spec: [delete] of section 4.1 (hard delete by
    primary key). *)
Definition delete (user_id : Z) (db : Db) : Db :=
  mkDb (filter (λ r, id r ≠ user_id) (rows db)) (next_id db) (clock db).

End models.

Import models.

(** ** Database sessions: state passing with exceptions *)

Definition M (A : Type) : Type := Db → Res A * Db.

#[global] Instance M_ret : MRet M := λ A a db, (Ok a, db).

#[global] Instance M_bind : MBind M := λ A B f m db,
  match m db with
  | (Ok a, db') => f a db'
  | (Raise e, db') => (Raise e, db')
  end.

Definition raise {A : Type} (e : Exn) : M A := λ db, (Raise e, db).

(** [db.query(models.User)]: the rows, in primary-key order. *)
Definition query : M (list User) := λ db, (Ok (rows db), db).

(** [db.add(models.User(email=..., hashed_password=...)); db.commit();
    db.refresh(db_user)] *)
Definition add_commit_refresh (e h : string) : M User := models.insert e h.

(** [db.commit()] with the instance [o] in the session, loaded as the row
    [r].  The session's unit of work compares the instance with what it
    loaded: where no attribute has another value than before, none was
    modified and no UPDATE is issued; otherwise the row is updated. *)
Definition commit (r : User) (o : Instance) : M unit :=
  if decide (o = load r) then mret tt else models.update o.

(** [db.delete(db_user); db.commit()] *)
Definition delete_commit (u : User) : M unit :=
  λ db, (Ok tt, models.delete (id u) db).

(** ** app/schemas.py *)

Module schemas.

(** A field of a model whose fields all default to [None]: either never
    set by the request, or set to some value, possibly [None] (JSON null).
    pydantic keeps the names of the fields that were set in
    [model_fields_set]. *)
Inductive Field (A : Type) :=
| Unset
| Provided (v : option A).

Arguments Unset {A}.
Arguments Provided {A} v.

(** Attribute access: an unset field reads as its default, [None]. *)
Definition value {A : Type} (f : Field A) : option A :=
  match f with
  | Unset => None
  | Provided v => v
  end.

Record UserCreate := mkUserCreate {
  uc_email : string;
  uc_password : string }.

(** [is_active] is [None] where the request does not set it, and the
    boolean it sets otherwise.  A request that sets [is_active] to null is
    not embedded: the table of the data model holds a boolean there, and
    neither the sources nor the data model tell what the store does with a
    null. *)
Record UserUpdate := mkUserUpdate {
  uu_email : Field string;
  uu_password : Field string;
  uu_is_active : option bool }.

(** The output model: the attributes read from the ORM instance
    ([from_attributes]); it has no password field of any kind. *)
Record User := mkUser {
  email : string;
  id : Z;
  is_active : bool;
  created_at : Z;
  updated_at : option Z }.

Definition from_attributes (u : models.User) : User :=
  mkUser (models.email u) (models.id u) (models.is_active u)
         (models.created_at u) (models.updated_at u).

Record UsersListResponse := mkUsersListResponse {
  message : string;
  users : list User;
  total : Z }.

Definition dump_field {A : Type} (name : string) (inj : A → PyVal)
    (f : Field A) : dict :=
  match f with
  | Unset => []
  | Provided None => [(name, VNone)]
  | Provided (Some x) => [(name, inj x)]
  end.

(** [user_update.model_dump(exclude_unset=True)]: the fields that were
    set, in declaration order. *)
Definition model_dump_exclude_unset (u : UserUpdate) : dict :=
  dump_field "email" VStr (uu_email u)
  ++ dump_field "password" VStr (uu_password u)
  ++ match uu_is_active u with
     | None => []
     | Some a => [("is_active", VBool a)]
     end.

End schemas.

(** ** JSON bodies and HTTP responses *)

Inductive Json :=
| JNull
| JBool (b : bool)
| JInt (n : Z)
| JStr (s : string)
| JArr (l : list Json)
| JObj (o : list (string * Json)).

(** The names of the members of a JSON object. *)
Definition keys (j : Json) : list string :=
  match j with
  | JObj o => fst <$> o
  | _ => []
  end.


Definition json_opt_int (t : option Z) : Json :=
  match t with
  | None => JNull
  | Some n => JInt n
  end.

(** Serialization of the response models (timestamps are written as the
    clock instants they hold). *)
Definition User_json (u : schemas.User) : Json :=
  JObj [ ("email", JStr (schemas.email u));
         ("id", JInt (schemas.id u));
         ("is_active", JBool (schemas.is_active u));
         ("created_at", JInt (schemas.created_at u));
         ("updated_at", json_opt_int (schemas.updated_at u)) ].

Definition UsersListResponse_json (r : schemas.UsersListResponse) : Json :=
  JObj [ ("message", JStr (schemas.message r));
         ("users", JArr (User_json <$> schemas.users r));
         ("total", JInt (schemas.total r)) ].

Record Response := mkResponse {
  status_code : Z;
  body : Json }.

(** The error object the framework reports for one failed query
    parameter, as pydantic 2 words it (the sources use its [model_dump]
    and [model_config]): the kind of the bound, where the parameter stands,
    the message, the text received for the parameter (the decimal numeral
    of the value the embedding holds) and the bound. *)
Definition validation_error (i : Issue) : Json :=
  match issue_bound i with
  | Ge n =>
      JObj [ ("type", JStr "greater_than_equal");
             ("loc", JArr [JStr "query"; JStr (issue_param i)]);
             ("msg", JStr ("Input should be greater than or equal to " +:+ pretty n));
             ("input", JStr (pretty (issue_input i)));
             ("ctx", JObj [("ge", JInt n)]) ]
  | Le n =>
      JObj [ ("type", JStr "less_than_equal");
             ("loc", JArr [JStr "query"; JStr (issue_param i)]);
             ("msg", JStr ("Input should be less than or equal to " +:+ pretty n));
             ("input", JStr (pretty (issue_input i)));
             ("ctx", JObj [("le", JInt n)]) ]
  end.

(** What the framework sends for a handler: the handler's value under the
    route's status code, an [HTTPException] as its status and detail, a
    request that fails validation as 422 with one error object for each
    failed parameter, any other exception as 500.  A value that does not
    validate against the route's response model would be answered with 500
    as well; no handler returns one here: the rows of the table hold the
    types the output model declares (a string, an integer, a boolean, two
    instants of which the second may be absent).  That a string is an email
    address, which [EmailStr] checks in a request and in a response alike,
    is not embedded: the strings held as emails stand for addresses. *)
Definition respond {A : Type} (success : Z) (to_json : A → Json)
    (handler : M A) (db : Db) : Response * Db :=
  match handler db with
  | (Ok a, db') => (mkResponse success (to_json a), db')
  | (Raise (HTTPException s d), db') => (mkResponse s (JObj [("detail", JStr d)]), db')
  | (Raise (RequestValidationError errors), db') =>
      (mkResponse 422 (JObj [("detail", JArr (validation_error <$> errors))]), db')
  | (Raise _, db') => (mkResponse 500 (JStr "Internal Server Error"), db')
  end.

(** ** app/crud.py *)

Module crud.

Definition hash_password (password : string) : string :=
  SHA256.hexdigest password.

(** [hash_password] called on a value taken from a dictionary:
    [password.encode()] exists only on a [str]. *)
Definition hash_password_value (password : PyVal) : M string :=
  match password with
  | VStr s => mret (hash_password s)
  | _ => raise AttributeError
  end.

Definition verify_password (plain_password hashed_password : string) : bool :=
  bool_decide (hash_password plain_password = hashed_password).

Definition get_user_by_id (user_id : Z) : M (option models.User) :=
  all ← query;
  mret (head (filter (λ u, models.id u = user_id) all)).

Definition get_user_by_email (email : string) : M (option models.User) :=
  all ← query;
  mret (head (filter (λ u, models.email u = email) all)).

Definition get_users (skip limit : nat) : M (list models.User) :=
  all ← query;
  mret (take limit (drop skip all)).

Definition get_users_count : M Z :=
  all ← query;
  mret (Z.of_nat (length all)).

Definition create_user (user : schemas.UserCreate) : M models.User :=
  let hashed_password := hash_password (schemas.uc_password user) in
  add_commit_refresh (schemas.uc_email user) hashed_password.

(** Lines 50-54 of [update_user]: the dictionary of attributes to assign. *)
Definition update_data_of (user_update : schemas.UserUpdate) : M dict :=
  let update_data := schemas.model_dump_exclude_unset user_update in
  if dict_in "password" update_data then
    h ← hash_password_value (default VNone (dict_get "password" update_data));
    mret (dict_set "hashed_password" (VStr h) (dict_pop "password" update_data))
  else mret update_data.

Definition update_user (user_id : Z) (user_update : schemas.UserUpdate)
    : M (option models.User) :=
  db_user ← get_user_by_id user_id;
  match db_user with
  | None => mret None
  | Some loaded =>
      update_data ← update_data_of user_update;
      let db_user :=
        fold_left (λ o '(field, value), setattr o field value)
                  update_data (load loaded) in
      _ ← commit loaded db_user;
      get_user_by_id (i_id db_user)
  end.

Definition delete_user (user_id : Z) : M bool :=
  db_user ← get_user_by_id user_id;
  match db_user with
  | None => mret false
  | Some db_user => _ ← delete_commit db_user; mret true
  end.

Definition authenticate_user (email password : string) : M (option models.User) :=
  user ← get_user_by_email email;
  match user with
  | None => mret None
  | Some user =>
      if negb (verify_password password (models.hashed_password user))
      then mret None
      else mret (Some user)
  end.

End crud.

(** ** app/main.py: the request handlers *)

Module main.

Definition create_user (user : schemas.UserCreate) : M models.User :=
  db_user ← crud.get_user_by_email (schemas.uc_email user);
  match db_user with
  | Some _ => raise (HTTPException 400 "Email already registered")
  | None => crud.create_user user
  end.

(** The declarations [skip: int = Query(0, ge=0)] and
    [limit: int = Query(100, ge=1, le=1000)]: the parameters that fail
    them, in the order of the signature. *)
Definition query_issues (skip limit : Z) : list Issue :=
  (if decide (0 ≤ skip) then [] else [mkIssue "skip" skip (Ge 0)])
  ++ (if decide (1 ≤ limit) then [] else [mkIssue "limit" limit (Ge 1)])
  ++ (if decide (limit ≤ 1000) then [] else [mkIssue "limit" limit (Le 1000)]).

Definition get_users (skip limit : Z) : M schemas.UsersListResponse :=
  if bool_decide (0 ≤ skip ∧ 1 ≤ limit ∧ limit ≤ 1000) then
    users ← crud.get_users (Z.to_nat skip) (Z.to_nat limit);
    total ← crud.get_users_count;
    mret (schemas.mkUsersListResponse
            ("Retrieved " +:+ pretty (length users) +:+ " users")
            (schemas.from_attributes <$> users)
            total)
  else raise (RequestValidationError (query_issues skip limit)).

Definition get_user (user_id : Z) : M models.User :=
  db_user ← crud.get_user_by_id user_id;
  match db_user with
  | None => raise (HTTPException 404 "User not found")
  | Some db_user => mret db_user
  end.

(** Lines 80-86 of [update_user]: [if user_update.email:] holds for a
    non-empty string. *)
Definition check_email (user_id : Z) (user_update : schemas.UserUpdate) : M unit :=
  match schemas.value (schemas.uu_email user_update) with
  | Some email =>
      if decide (email = "") then mret tt
      else
        existing_user ← crud.get_user_by_email email;
        match existing_user with
        | Some existing_user =>
            if decide (models.id existing_user ≠ user_id)
            then raise (HTTPException 400 "Email already registered by another user")
            else mret tt
        | None => mret tt
        end
  | None => mret tt
  end.

Definition update_user (user_id : Z) (user_update : schemas.UserUpdate)
    : M models.User :=
  _ ← check_email user_id user_update;
  db_user ← crud.update_user user_id user_update;
  match db_user with
  | None => raise (HTTPException 404 "User not found")
  | Some db_user => mret db_user
  end.

Definition delete_user (user_id : Z) : M Json :=
  success ← crud.delete_user user_id;
  if negb success then raise (HTTPException 404 "User not found")
  else mret (JObj [("message", JStr "User deleted successfully")]).

Definition login (user_credentials : schemas.UserCreate) : M Json :=
  user ← crud.authenticate_user (schemas.uc_email user_credentials)
                                (schemas.uc_password user_credentials);
  match user with
  | None => raise (HTTPException 401 "Incorrect email or password")
  | Some user =>
      if negb (models.is_active user)
      then raise (HTTPException 400 "Inactive user")
      else mret (JObj [ ("message", JStr "Login successful");
                        ("user_id", JInt (models.id user));
                        ("email", JStr (models.email user)) ])
  end.

Definition get_user_by_email (email : string) : M models.User :=
  db_user ← crud.get_user_by_email email;
  match db_user with
  | None => raise (HTTPException 404 "User not found")
  | Some db_user => mret db_user
  end.

End main.

(** ** The routes: each handler under its decorator's status code and
    response model *)

Module app.

Definition as_User (u : models.User) : Json :=
  User_json (schemas.from_attributes u).

Definition POST_users (user : schemas.UserCreate) : Db → Response * Db :=
  respond 201 as_User (main.create_user user).

Definition GET_users (skip limit : Z) : Db → Response * Db :=
  respond 200 UsersListResponse_json (main.get_users skip limit).

Definition GET_user (user_id : Z) : Db → Response * Db :=
  respond 200 as_User (main.get_user user_id).

Definition PUT_user (user_id : Z) (user_update : schemas.UserUpdate)
    : Db → Response * Db :=
  respond 200 as_User (main.update_user user_id user_update).

Definition DELETE_user (user_id : Z) : Db → Response * Db :=
  respond 200 (λ j, j) (main.delete_user user_id).

Definition POST_auth_login (user_credentials : schemas.UserCreate)
    : Db → Response * Db :=
  respond 200 (λ j, j) (main.login user_credentials).

Definition GET_user_by_email (email : string) : Db → Response * Db :=
  respond 200 as_User (main.get_user_by_email email).

End app.

(** ** Stores the service can be in *)

(** The invariants of the table: the rows are in ascending order of their
    ids, emails are unique, ids were assigned below the next id, and no row
    was created in the future. *)
Record wf (db : Db) : Prop := mkWf {
  wf_sorted : StronglySorted Z.lt (models.id <$> rows db);
  wf_emails : NoDup (models.email <$> rows db);
  wf_next : Forall (λ u, models.id u < next_id db) (rows db);
  wf_created : Forall (λ u, models.created_at u ≤ clock db) (rows db) }.

(** One request to the service, or time passing. *)
Inductive step : Db → Db → Prop :=
| step_tick dt db :
    step db (tick dt db)
| step_create user db :
    step db (main.create_user user db).2
| step_update user_id user_update db :
    step db (main.update_user user_id user_update db).2
| step_delete user_id db :
    step db (main.delete_user user_id db).2
| step_crud_create user db :
    step db (crud.create_user user db).2
| step_crud_update user_id user_update db :
    step db (crud.update_user user_id user_update db).2
| step_crud_delete user_id db :
    step db (crud.delete_user user_id db).2.

Inductive reachable : Db → Prop :=
| reachable_empty : reachable models.empty
| reachable_step db db' : reachable db → step db db' → reachable db'.

(** Example stores and requests. *)
Definition alice : schemas.UserCreate := schemas.mkUserCreate "a@x.com" "p1".
Definition bob : schemas.UserCreate := schemas.mkUserCreate "b@x.com" "p2".

Definition db1 : Db := tick 5 (main.create_user alice models.empty).2.
Definition db2 : Db := tick 5 (main.create_user bob db1).2.

Definition no_update : schemas.UserUpdate :=
  schemas.mkUserUpdate schemas.Unset schemas.Unset None.

(** ** Responses the statements name *)

Definition unauthorized : Response :=
  mkResponse 401 (JObj [("detail", JStr "Incorrect email or password")]).

Definition inactive : Response :=
  mkResponse 400 (JObj [("detail", JStr "Inactive user")]).

Ltac unfold_M :=
  unfold mbind, M_bind, mret, M_ret, raise, query, commit,
    add_commit_refresh, delete_commit in *.

(** ** Partial updates as the specification describes them *)

(** The email and the password carry a value where the request sets them
    (neither is JSON null). *)
Definition carries_values (user_update : schemas.UserUpdate) : Prop :=
  schemas.uu_email user_update ≠ schemas.Provided None
  ∧ schemas.uu_password user_update ≠ schemas.Provided None.

(** The email the request sets, if any, is not the email of a row with
    another id. *)
Definition email_available (user_id : Z) (user_update : schemas.UserUpdate)
    (db : Db) : Prop :=
  ∀ e r, schemas.uu_email user_update = schemas.Provided (Some e) →
         r ∈ rows db → models.email r = e → models.id r = user_id.

(** Section 4.2, [update]: a present password is stored hashed, the other
    present fields are stored as given, absent fields keep their values;
    section 4.1: [updated_at] becomes the current time, [id] and
    [created_at] stay. *)
Definition spec_update (user_update : schemas.UserUpdate) (now : Z) (u : User) : User :=
  mkUser (models.id u)
         (match schemas.uu_email user_update with
          | schemas.Provided (Some e) => e
          | _ => models.email u
          end)
         (match schemas.uu_password user_update with
          | schemas.Provided (Some p) => crud.hash_password p
          | _ => models.hashed_password u
          end)
         (match schemas.uu_is_active user_update with
          | Some a => a
          | None => models.is_active u
          end)
         (models.created_at u)
         (Some now).

(** What a commit leaves of the row [u] for an update: [u] itself where the
    update gives no attribute another value, the written row otherwise. *)
Definition stored_update (user_update : schemas.UserUpdate) (now : Z) (u : User) : User :=
  let u' := spec_update user_update now u in
  if decide (load u' = load u) then u else u'.

Definition new_email_and_password : schemas.UserUpdate :=
  schemas.mkUserUpdate (schemas.Provided (Some "c@x.com"))
                       (schemas.Provided (Some "new")) None.

Definition take_email : schemas.UserUpdate :=
  schemas.mkUserUpdate (schemas.Provided (Some "a@x.com")) schemas.Unset None.

Definition null_password : schemas.UserUpdate :=
  schemas.mkUserUpdate schemas.Unset (schemas.Provided None) None.


(** ** Responses of PUT /users/{id} *)

(** The body sets a non-empty email (the handler's test is
    [if user_update.email:]) that a row with another id holds. *)
Definition used_by_other (user_id : Z) (user_update : schemas.UserUpdate)
    (db : Db) : Prop :=
  ∃ e r, schemas.value (schemas.uu_email user_update) = Some e ∧ e ≠ ""
         ∧ r ∈ rows db ∧ models.email r = e ∧ models.id r ≠ user_id.

Definition email_taken : Response :=
  mkResponse 400 (JObj [("detail", JStr "Email already registered by another user")]).

Definition not_found : Response :=
  mkResponse 404 (JObj [("detail", JStr "User not found")]).

(** ** Pages of users *)

(** The set of ids of a page. *)
Definition ids (page : list User) : gset Z := list_to_set (models.id <$> page).

(** ** Shapes of response bodies *)

(** A user as the routes return it. *)
Definition user_body (j : Json) : Prop := ∃ u : schemas.User, j = User_json u.

(** The body of the list route: a message, users as the routes return
    them, and the total. *)
Definition users_list_body (j : Json) : Prop :=
  ∃ msg (us : list schemas.User) total,
    j = JObj [ ("message", JStr msg); ("users", JArr (User_json <$> us));
               ("total", JInt total) ].

(** An error body: a [detail] member only, or plain text. *)
Definition error_body (j : Json) : Prop :=
  keys j = ["detail"] ∨ keys j = [].

(** A response is the route's success with a body of the given shape, or
    another status with an error body. *)
Definition answers (success : Z) (shape : Json → Prop) (r : Response) : Prop :=
  (status_code r = success ∧ shape (body r))
  ∨ (status_code r ≠ success ∧ error_body (body r)).

(** ** Requests the further statements name *)

Definition deactivate : schemas.UserUpdate :=
  schemas.mkUserUpdate schemas.Unset schemas.Unset (Some false).

Definition set_password (password : string) : schemas.UserUpdate :=
  schemas.mkUserUpdate schemas.Unset (schemas.Provided (Some password)) None.

Definition set_email (email : string) : schemas.UserUpdate :=
  schemas.mkUserUpdate (schemas.Provided (Some email)) schemas.Unset None.

Definition login_successful (u : User) : Response :=
  mkResponse 200 (JObj [ ("message", JStr "Login successful");
                         ("user_id", JInt (models.id u));
                         ("email", JStr (models.email u)) ]).

Definition server_error : Response :=
  mkResponse 500 (JStr "Internal Server Error").

(** ** The alphabet of a hex digest *)

Definition lower_hex (c : ascii) : Prop :=
  c ∈ list_ascii_of_string "0123456789abcdef".

#[global] Instance lower_hex_dec (c : ascii) : Decision (lower_hex c) :=
  decide (c ∈ list_ascii_of_string "0123456789abcdef").

(** The shape of a SHA-256 hex digest: 64 characters, each of them one of
    0-9 and a-f.  Those characters take one byte each, so such a string is
    64 bytes long as well. *)
Definition hex_digest_shaped (s : string) : Prop :=
  String.length s = 64%nat ∧ Forall lower_hex (list_ascii_of_string s).

(** A password of 63 characters that takes 64 bytes: 62 letters and one
    character of two bytes (195 169, e with acute accent). *)
Definition password_of_64_bytes : string :=
  String.concat "" (replicate 62 "a") +:+ String "195" (String "169" "").

(** * Properties *)

(** ** Lists and lookups *)

Section lists.
Context {A : Type} (P : A → Prop) `{!∀ x, Decision (P x)}.

Lemma head_filter_None (l : list A) :
  head (filter P l) = None ↔ ∀ x, x ∈ l → ¬ P x.
Proof.
  rewrite head_None. split.
  - intros Hnil x Hx HP.
    assert (x ∈ filter P l) as Hin by (apply list_elem_of_filter; done).
    rewrite Hnil in Hin. by apply elem_of_nil in Hin.
  - intros Hall. induction l as [|a l IH]; [done|].
    rewrite filter_cons. destruct (decide (P a)) as [HP|HP].
    + exfalso. apply (Hall a); [left | done].
    + apply IH. intros x Hx. apply Hall. by right.
Qed.

Lemma head_filter_Some (l : list A) (x : A) :
  head (filter P l) = Some x → x ∈ l ∧ P x.
Proof.
  intros Hh. apply head_Some_elem_of in Hh.
  apply list_elem_of_filter in Hh. tauto.
Qed.

Lemma head_filter_is_Some (l : list A) (x : A) :
  x ∈ l → P x → is_Some (head (filter P l)).
Proof.
  intros Hx HP. destruct (head (filter P l)) eqn:E; [eauto|].
  by destruct (proj1 (head_filter_None l) E x Hx).
Qed.
End lists.

Lemma NoDup_fmap_eq {A B : Type} (f : A → B) (l : list A) (x y : A) :
  NoDup (f <$> l) → x ∈ l → y ∈ l → f x = f y → x = y.
Proof.
  induction l as [|a l IH]; intros Hnd Hx Hy Hf.
  - by apply elem_of_nil in Hx.
  - rewrite fmap_cons in Hnd. apply NoDup_cons in Hnd as [Hnot Hnd].
    apply elem_of_cons in Hx as [->|Hx]; apply elem_of_cons in Hy as [->|Hy].
    + done.
    + exfalso. apply Hnot. rewrite Hf. by apply list_elem_of_fmap_2.
    + exfalso. apply Hnot. rewrite <- Hf. by apply list_elem_of_fmap_2.
    + by apply IH.
Qed.

Lemma StronglySorted_lt_NoDup (l : list Z) : StronglySorted Z.lt l → NoDup l.
Proof.
  induction 1 as [|a l Hs IH Hall]; [apply NoDup_nil_2|].
  apply NoDup_cons. split; [|done].
  intros Hin. rewrite Forall_forall in Hall. specialize (Hall a).
  assert (a < a) by (by apply Hall). lia.
Qed.

Lemma wf_ids (db : Db) : wf db → NoDup (models.id <$> rows db).
Proof. intros Hwf. apply StronglySorted_lt_NoDup, Hwf. Qed.

(** ** The queries of crud.py read the table and leave it as it is *)

Lemma get_user_by_id_eq (user_id : Z) (db : Db) :
  crud.get_user_by_id user_id db
  = (Ok (head (filter (λ u, models.id u = user_id) (rows db))), db).
Proof. reflexivity. Qed.

Lemma get_user_by_email_eq (email : string) (db : Db) :
  crud.get_user_by_email email db
  = (Ok (head (filter (λ u, models.email u = email) (rows db))), db).
Proof. reflexivity. Qed.

Lemma get_user_by_id_Some (user_id : Z) (db : Db) (u : User) :
  crud.get_user_by_id user_id db = (Ok (Some u), db) →
  u ∈ rows db ∧ models.id u = user_id.
Proof.
  rewrite get_user_by_id_eq. intros [= E].
  by apply (head_filter_Some (λ u, models.id u = user_id)) in E.
Qed.

Lemma get_user_by_email_Some (email : string) (db : Db) (u : User) :
  crud.get_user_by_email email db = (Ok (Some u), db) →
  u ∈ rows db ∧ models.email u = email.
Proof.
  rewrite get_user_by_email_eq. intros [= E].
  by apply (head_filter_Some (λ u, models.email u = email)) in E.
Qed.

Lemma get_user_by_email_None (email : string) (db : Db) :
  crud.get_user_by_email email db = (Ok None, db) ↔
  ∀ u, u ∈ rows db → models.email u ≠ email.
Proof.
  rewrite get_user_by_email_eq. split.
  - intros [= E]. exact (proj1 (head_filter_None (λ u, models.email u = email) _) E).
  - intros H. f_equal. f_equal.
    by apply (head_filter_None (λ u, models.email u = email)).
Qed.

Lemma get_user_by_id_None (user_id : Z) (db : Db) :
  crud.get_user_by_id user_id db = (Ok None, db) ↔
  ∀ u, u ∈ rows db → models.id u ≠ user_id.
Proof.
  rewrite get_user_by_id_eq. split.
  - intros [= E]. exact (proj1 (head_filter_None (λ u, models.id u = user_id) _) E).
  - intros H. f_equal. f_equal.
    by apply (head_filter_None (λ u, models.id u = user_id)).
Qed.

(** ** The table invariants hold in every store the service reaches *)

Lemma wf_empty : wf models.empty.
Proof. split; simpl; constructor. Qed.

Lemma tick_wf (dt : N) (db : Db) : wf db → wf (tick dt db).
Proof.
  intros [Hs He Hn Hc]. split; simpl; try done.
  eapply Forall_impl; [exact Hc|]. simpl. intros u Hu. lia.
Qed.

Lemma insert_wf (e h : string) (db : Db) : wf db → wf (models.insert e h db).2.
Proof.
  intros Hwf. unfold models.insert. case_decide as Hin; [done|].
  destruct Hwf as [Hs He Hn Hc]. split; simpl.
  - rewrite fmap_app. apply StronglySorted_app_2; [|done | repeat constructor].
    simpl. intros x1 x2 Hx1 Hx2. apply list_elem_of_singleton in Hx2 as ->.
    apply list_elem_of_fmap in Hx1 as (u & -> & Hu).
    rewrite Forall_forall in Hn. by apply Hn.
  - rewrite fmap_app. apply NoDup_app. split; [done|]. split.
    + intros x Hx Hx'. apply list_elem_of_singleton in Hx'. by subst x.
    + apply NoDup_singleton.
  - apply Forall_app. split.
    + eapply Forall_impl; [exact Hn|]. simpl. intros; lia.
    + repeat constructor. simpl. lia.
  - apply Forall_app. split; [done|]. repeat constructor. simpl. lia.
Qed.

Lemma update_wf (o : Instance) (db : Db) : wf db → wf (models.update o db).2.
Proof.
  intros Hwf. unfold models.update.
  destruct (i_email o) as [|e|]; try done.
  destruct (i_hashed_password o) as [|h|]; try done.
  case_decide as Hex; [done|].
  destruct Hwf as [Hs He Hn Hc]. simpl.
  set (f := λ r : User,
         if decide (id r = i_id o) then write e h (i_is_active o) (clock db) r else r).
  assert (Hid : ∀ r, id (f r) = id r).
  { intros r. unfold f. by case_decide. }
  assert (Hids : id <$> (f <$> rows db) = id <$> rows db).
  { rewrite <- list_fmap_compose. apply list_fmap_ext. intros ? r _. apply Hid. }
  split; simpl.
  - by rewrite Hids.
  - (* emails stay unique: the written email belongs to no other row *)
    rewrite <- list_fmap_compose.
    apply NoDup_fmap_2_strong; [|by apply NoDup_fmap_1 in He].
    intros x y Hx Hy Hxy. simpl in Hxy. unfold f in Hxy.
    assert (Hother : ∀ r, r ∈ rows db → email r = e → id r = i_id o).
    { intros r Hr Hre. destruct (decide (id r = i_id o)); [done|].
      exfalso. apply Hex. apply Exists_exists. eauto. }
    destruct (decide (id x = i_id o)) as [Ex|Ex];
      destruct (decide (id y = i_id o)) as [Ey|Ey]; simpl in Hxy.
    + apply (NoDup_fmap_eq id (rows db)); try done.
      * by apply StronglySorted_lt_NoDup.
      * congruence.
    + symmetry in Hxy. by destruct (Ey (Hother y Hy Hxy)).
    + by destruct (Ex (Hother x Hx Hxy)).
    + by apply (NoDup_fmap_eq email (rows db)).
  - apply Forall_fmap. eapply Forall_impl; [exact Hn|].
    intros r Hr. simpl. by rewrite Hid.
  - apply Forall_fmap. eapply Forall_impl; [exact Hc|].
    intros r Hr. simpl. unfold f. by case_decide.
Qed.

Lemma Forall_filter_keep {A : Type} (P Q : A → Prop) `{!∀ x, Decision (P x)}
    (l : list A) :
  Forall Q l → Forall Q (filter P l).
Proof.
  rewrite !Forall_forall. intros Hall x Hx.
  apply list_elem_of_filter in Hx as [_ Hx]. by apply Hall.
Qed.

Lemma StronglySorted_fmap_filter {A : Type} (P : A → Prop)
    `{!∀ x, Decision (P x)} (f : A → Z) (l : list A) :
  StronglySorted Z.lt (f <$> l) → StronglySorted Z.lt (f <$> filter P l).
Proof.
  induction l as [|a l IH]; [done|].
  rewrite fmap_cons, StronglySorted_cons. intros [Hall Hs].
  rewrite filter_cons. case_decide; [|by apply IH].
  rewrite fmap_cons. apply StronglySorted_cons. split; [|by apply IH].
  apply Forall_fmap. apply Forall_filter_keep. by apply Forall_fmap.
Qed.

Lemma NoDup_fmap_filter {A B : Type} (P : A → Prop)
    `{!∀ x, Decision (P x)} (f : A → B) (l : list A) :
  NoDup (f <$> l) → NoDup (f <$> filter P l).
Proof.
  induction l as [|a l IH]; [done|].
  rewrite fmap_cons, NoDup_cons. intros [Hnot Hnd].
  rewrite filter_cons. case_decide; [|by apply IH].
  rewrite fmap_cons. apply NoDup_cons. split; [|by apply IH].
  intros Hin. apply Hnot.
  apply list_elem_of_fmap in Hin as (x & -> & Hx).
  apply list_elem_of_filter in Hx as [_ Hx]. by apply list_elem_of_fmap_2.
Qed.

Lemma delete_wf (user_id : Z) (db : Db) : wf db → wf (models.delete user_id db).
Proof.
  intros [Hs He Hn Hc]. split; simpl.
  - by apply StronglySorted_fmap_filter.
  - by apply NoDup_fmap_filter.
  - by apply Forall_filter_keep.
  - by apply Forall_filter_keep.
Qed.

Lemma update_data_of_db (user_update : schemas.UserUpdate) (db : Db) :
  (crud.update_data_of user_update db).2 = db.
Proof.
  unfold crud.update_data_of. case (dict_in _ _); [|done].
  unfold crud.hash_password_value. unfold_M.
  by destruct (default VNone _).
Qed.

Lemma crud_update_user_db (user_id : Z) (user_update : schemas.UserUpdate) (db : Db) :
  (crud.update_user user_id user_update db).2 = db
  ∨ ∃ o, (crud.update_user user_id user_update db).2 = (models.update o db).2.
Proof.
  unfold crud.update_user, crud.get_user_by_id. unfold_M. simpl.
  destruct (head _) as [u|]; [|by left].
  pose proof (update_data_of_db user_update db) as Hd.
  destruct (crud.update_data_of user_update db) as [[d|e] db']; simpl in Hd; subst db';
    [|by left].
  case_decide; [by left|]. right.
  match goal with
  | |- context [models.update ?o db] =>
      exists o; by destruct (models.update o db) as [[[]|e] db']
  end.
Qed.

Lemma crud_delete_user_db (user_id : Z) (db : Db) :
  (crud.delete_user user_id db).2 = db
  ∨ (crud.delete_user user_id db).2 = models.delete user_id db.
Proof.
  unfold crud.delete_user. unfold_M. rewrite get_user_by_id_eq.
  destruct (head _) as [u|] eqn:E; [|by left]. right. simpl.
  apply (head_filter_Some (λ u, id u = user_id)) in E as [_ <-]. done.
Qed.

Lemma check_email_db (user_id : Z) (user_update : schemas.UserUpdate) (db : Db) :
  (main.check_email user_id user_update db).2 = db.
Proof.
  unfold main.check_email. unfold_M.
  destruct (schemas.value _) as [e|]; [|done].
  case_decide; [done|]. rewrite get_user_by_email_eq.
  destruct (head _) as [v|]; [|done]. by case_decide.
Qed.

Lemma step_wf (db db' : Db) : step db db' → wf db → wf db'.
Proof.
  intros Hstep Hwf. destruct Hstep.
  - by apply tick_wf.
  - unfold main.create_user. unfold_M. rewrite get_user_by_email_eq.
    destruct (head _); [done|]. by apply insert_wf.
  - unfold main.update_user. unfold_M.
    pose proof (check_email_db user_id user_update db) as Hc.
    destruct (main.check_email user_id user_update db) as [[[]|e] db0];
      simpl in Hc; subst db0; [|done].
    destruct (crud_update_user_db user_id user_update db) as [Hd|[o Hd]];
      destruct (crud.update_user user_id user_update db) as [[[v|]|e] db0];
      simpl in *; subst db0; try done; by apply update_wf.
  - unfold main.delete_user. unfold_M.
    destruct (crud_delete_user_db user_id db) as [Hd|Hd];
      destruct (crud.delete_user user_id db) as [[[]|e] db0];
      simpl in *; subst db0; try done; by apply delete_wf.
  - by apply insert_wf.
  - destruct (crud_update_user_db user_id user_update db) as [->|[o ->]];
      [done | by apply update_wf].
  - destruct (crud_delete_user_db user_id db) as [->| ->];
      [done | by apply delete_wf].
Qed.

Lemma reachable_wf (db : Db) : reachable db → wf db.
Proof.
  induction 1 as [|db db' _ IH Hstep]; [apply wf_empty|].
  by apply (step_wf db).
Qed.

(** ** Deleting a user *)

(** C8: [delete_user] returns [True] exactly when a row with the id exists,
    and then the table keeps exactly the rows with another id, so a lookup
    of the id finds nothing afterwards; on an id no row has it returns
    [False] and the store is left as it was. *)
Theorem delete_user_spec (user_id : Z) (db : Db) :
  ((∃ u, u ∈ rows db ∧ models.id u = user_id)
   ∧ crud.delete_user user_id db = (Ok true, models.delete user_id db)
   ∧ (∀ u, u ∈ rows (models.delete user_id db) ↔ u ∈ rows db ∧ models.id u ≠ user_id)
   ∧ crud.get_user_by_id user_id (models.delete user_id db)
     = (Ok None, models.delete user_id db))
  ∨ ((∀ u, u ∈ rows db → models.id u ≠ user_id)
     ∧ crud.delete_user user_id db = (Ok false, db)).
Proof.
  unfold crud.delete_user. unfold_M. rewrite get_user_by_id_eq.
  destruct (head _) as [u|] eqn:E.
  - left. apply (head_filter_Some (λ u, id u = user_id)) in E as [Hu Hid].
    split; [by exists u|]. split; [by rewrite Hid|]. split.
    + intros v. simpl. rewrite list_elem_of_filter. tauto.
    + apply get_user_by_id_None. intros v Hv. simpl in Hv.
      apply list_elem_of_filter in Hv. tauto.
  - right. split; [|done].
    exact (proj1 (head_filter_None (λ u, id u = user_id) _) E).
Qed.

(** ** Authentication *)

(** C2: [authenticate_user] returns [None] when no row has the email or
    when the password does not verify against the stored hash; otherwise it
    returns the row, whatever its [is_active] flag.  The login route answers
    401 in the first two cases and 400 for an authenticated inactive user. *)
Theorem authenticate_user_spec (email password : string) (db : Db) :
  let credentials := schemas.mkUserCreate email password in
  ((∀ u, u ∈ rows db → models.email u ≠ email)
   ∧ crud.authenticate_user email password db = (Ok None, db)
   ∧ app.POST_auth_login credentials db = (unauthorized, db))
  ∨ (∃ u, u ∈ rows db ∧ models.email u = email
     ∧ crud.get_user_by_email email db = (Ok (Some u), db)
     ∧ ((crud.verify_password password (models.hashed_password u) = false
         ∧ crud.authenticate_user email password db = (Ok None, db)
         ∧ app.POST_auth_login credentials db = (unauthorized, db))
        ∨ (crud.verify_password password (models.hashed_password u) = true
           ∧ crud.authenticate_user email password db = (Ok (Some u), db)
           ∧ ((models.is_active u = false
               ∧ app.POST_auth_login credentials db = (inactive, db))
              ∨ (models.is_active u = true
                 ∧ (app.POST_auth_login credentials db).2 = db
                 ∧ status_code (app.POST_auth_login credentials db).1 = 200))))).
Proof.
  intros credentials.
  unfold app.POST_auth_login, respond, main.login, crud.authenticate_user.
  unfold_M. simpl. rewrite get_user_by_email_eq.
  destruct (head _) as [u|] eqn:E.
  - right. exists u.
    apply (head_filter_Some (λ u, models.email u = email)) in E as [Hu He].
    split; [done|]. split; [done|]. split; [done|].
    destruct (crud.verify_password password (hashed_password u)); simpl.
    + right. split; [done|]. split; [done|].
      destruct (is_active u); simpl; [right | left]; done.
    + left. done.
  - left. split; [|done].
    exact (proj1 (head_filter_None (λ u, models.email u = email) _) E).
Qed.

(** C10: a login for an email no row has and a login for a registered
    email with a password that does not verify get the same answer from
    [authenticate_user] and the same 401 response from the route. *)
Theorem login_hides_registration (db : Db) (email1 password1 email2 password2 : string) (u : User) :
  (∀ v, v ∈ rows db → models.email v ≠ email1) →
  crud.get_user_by_email email2 db = (Ok (Some u), db) →
  crud.verify_password password2 (models.hashed_password u) = false →
  crud.authenticate_user email1 password1 db = (Ok None, db)
  ∧ crud.authenticate_user email2 password2 db = (Ok None, db)
  ∧ app.POST_auth_login (schemas.mkUserCreate email1 password1) db = (unauthorized, db)
  ∧ app.POST_auth_login (schemas.mkUserCreate email2 password2) db = (unauthorized, db).
Proof.
  intros Hnone Hsome Hbad.
  apply get_user_by_email_None in Hnone.
  unfold app.POST_auth_login, respond, main.login, crud.authenticate_user.
  unfold_M. cbn [schemas.uc_email schemas.uc_password].
  rewrite Hnone, Hsome. simpl. rewrite Hbad. done.
Qed.

Lemma login_hides_registration_witness :
  crud.authenticate_user "nobody@x.com" "p1" db2 = (Ok None, db2)
  ∧ crud.authenticate_user "a@x.com" "wrong" db2 = (Ok None, db2)
  ∧ app.POST_auth_login (schemas.mkUserCreate "nobody@x.com" "p1") db2 = (unauthorized, db2)
  ∧ app.POST_auth_login (schemas.mkUserCreate "a@x.com" "wrong") db2 = (unauthorized, db2).
Proof.
  apply (login_hides_registration db2 "nobody@x.com" "p1" "a@x.com" "wrong"
           (mkUser 1 "a@x.com" (crud.hash_password "p1") true 0 None)).
  - intros v Hv. vm_compute in Hv.
    repeat (apply elem_of_cons in Hv as [->|Hv]; [done|]).
    by apply elem_of_nil in Hv.
  - vm_compute. reflexivity.
  - vm_compute. reflexivity.
Defined.

(** ** Creating a user *)

Lemma count_email_insert (e h : string) (db : Db) (u : User) (db' : Db) :
  models.insert e h db = (Ok u, db') →
  (∀ r, r ∈ rows db → models.email r ≠ e)
  ∧ db' = mkDb (rows db ++ [u]) (next_id db + 1) (clock db)
  ∧ u = mkUser (next_id db) e h true (clock db) None.
Proof.
  unfold models.insert. case_decide as Hin; [done|]. intros [= Hu Hdb].
  split; [|by subst]. intros r Hr He. apply Hin. rewrite <- He.
  by apply list_elem_of_fmap_2.
Qed.

Lemma filter_nil_iff {A : Type} (P : A → Prop) `{!∀ x, Decision (P x)} (l : list A) :
  (∀ x, x ∈ l → ¬ P x) → filter P l = [].
Proof.
  intros Hall. apply head_None. by apply head_filter_None.
Qed.

(** C3: once a create for an email has succeeded, a second create for
    the same email fails: the route's pre-check raises 400 "Email already
    registered", and the store itself refuses the insert with an integrity
    error; the store is left as it was and holds exactly one row with that
    email. *)
Theorem create_user_duplicate_email
    (user : schemas.UserCreate) (password' : string) (dt : N)
    (db : Db) (u : User) (db' : Db) :
  main.create_user user db = (Ok u, db') ∨ crud.create_user user db = (Ok u, db') →
  let again := schemas.mkUserCreate (schemas.uc_email user) password' in
  let later := tick dt db' in
  main.create_user again later
    = (Raise (HTTPException 400 "Email already registered"), later)
  ∧ app.POST_users again later
    = (mkResponse 400 (JObj [("detail", JStr "Email already registered")]), later)
  ∧ crud.create_user again later = (Raise IntegrityError, later)
  ∧ length (filter (λ r, models.email r = schemas.uc_email user) (rows later)) = 1%nat.
Proof.
  intros Hfirst again later.
  assert (Hins : models.insert (schemas.uc_email user)
                   (crud.hash_password (schemas.uc_password user)) db = (Ok u, db')).
  { destruct Hfirst as [H|H]; [|exact H].
    unfold main.create_user in H. unfold_M. rewrite get_user_by_email_eq in H.
    by destruct (head _). }
  destruct (count_email_insert _ _ _ _ _ Hins) as (Hfresh & Hdb & Hu).
  assert (Hrows : rows later = rows db ++ [u]) by (unfold later; by rewrite Hdb).
  assert (Hemail : models.email u = schemas.uc_email user) by (by rewrite Hu).
  assert (Hfilter : filter (λ r, models.email r = schemas.uc_email user) (rows later) = [u]).
  { rewrite Hrows, filter_app, (filter_nil_iff _ (rows db)) by done.
    simpl. rewrite filter_cons. by case_decide. }
  assert (Hmain : main.create_user again later
    = (Raise (HTTPException 400 "Email already registered"), later)).
  { unfold main.create_user. unfold_M. rewrite get_user_by_email_eq.
    cbn [schemas.uc_email again]. by rewrite Hfilter. }
  split; [exact Hmain|]. split.
  - unfold app.POST_users, respond. by rewrite Hmain.
  - split; [|by rewrite Hfilter].
    unfold crud.create_user. unfold_M. unfold models.insert.
    cbn [schemas.uc_email again]. case_decide as Hin; [done|].
    exfalso. apply Hin. rewrite Hrows, fmap_app, <- Hemail.
    apply elem_of_app. right. simpl. left.
Qed.

Lemma create_user_duplicate_email_witness :
  main.create_user (schemas.mkUserCreate "a@x.com" "other") db1
    = (Raise (HTTPException 400 "Email already registered"), db1)
  ∧ app.POST_users (schemas.mkUserCreate "a@x.com" "other") db1
    = (mkResponse 400 (JObj [("detail", JStr "Email already registered")]), db1)
  ∧ crud.create_user (schemas.mkUserCreate "a@x.com" "other") db1
    = (Raise IntegrityError, db1)
  ∧ length (filter (λ r, models.email r = "a@x.com") (rows db1)) = 1%nat.
Proof.
  apply (create_user_duplicate_email alice "other" 5 models.empty
           (mkUser 1 "a@x.com" (crud.hash_password "p1") true 0 None)
           (main.create_user alice models.empty).2).
  left. vm_compute. reflexivity.
Defined.

(** ** Updating a user *)

Lemma head_filter_id_fmap (f : User → User) (k : Z) (l : list User) :
  (∀ r, models.id (f r) = models.id r) →
  head (filter (λ u, models.id u = k) (f <$> l))
  = f <$> head (filter (λ u, models.id u = k) l).
Proof.
  intros Hid. induction l as [|a l IH]; [done|].
  rewrite fmap_cons, !filter_cons, Hid. by case_decide.
Qed.

Lemma update_data_of_values (user_update : schemas.UserUpdate) (db : Db) :
  carries_values user_update →
  crud.update_data_of user_update db
  = (Ok (schemas.dump_field "email" VStr (schemas.uu_email user_update)
         ++ match schemas.uu_is_active user_update with
            | None => []
            | Some a => [("is_active", VBool a)]
            end
         ++ match schemas.uu_password user_update with
            | schemas.Provided (Some p) =>
                [("hashed_password", VStr (crud.hash_password p))]
            | _ => []
            end), db).
Proof.
  destruct user_update as [[|[e|]] [|[p|]] [a|]]; intros (He & Hp); try done.
Qed.

Lemma setattr_values (user_update : schemas.UserUpdate) (db : Db) (u : User) (d : dict) :
  carries_values user_update →
  crud.update_data_of user_update db = (Ok d, db) →
  fold_left (λ o '(field, value), setattr o field value) d (load u)
  = load (spec_update user_update (clock db) u).
Proof.
  intros Hv. rewrite update_data_of_values by done. intros [= <-].
  destruct user_update as [[|[e|]] [|[p|]] [a|]]; destruct Hv as (He & Hp);
    try done.
Qed.

Lemma wf_email_owner (db : Db) (u r : User) :
  wf db → u ∈ rows db → r ∈ rows db → models.email r = models.email u →
  models.id r = models.id u.
Proof.
  intros Hwf Hu Hr He. f_equal.
  by apply (NoDup_fmap_eq models.email (rows db)); [apply Hwf| | |].
Qed.

Lemma wf_lookup_id (db : Db) (u : User) :
  wf db → u ∈ rows db → crud.get_user_by_id (models.id u) db = (Ok (Some u), db).
Proof.
  intros Hwf Hu. rewrite get_user_by_id_eq.
  destruct (head_filter_is_Some (λ v, models.id v = models.id u) (rows db) u Hu eq_refl)
    as [v Hv].
  rewrite Hv. do 3 f_equal.
  apply (head_filter_Some (λ v, models.id v = models.id u)) in Hv as [Hv Hvid].
  by apply (NoDup_fmap_eq models.id (rows db)); [apply wf_ids| | |].
Qed.

Lemma wf_lookup_email (db : Db) (u : User) :
  wf db → u ∈ rows db → crud.get_user_by_email (models.email u) db = (Ok (Some u), db).
Proof.
  intros Hwf Hu. rewrite get_user_by_email_eq.
  destruct (head_filter_is_Some (λ v, models.email v = models.email u) (rows db) u Hu eq_refl)
    as [v Hv].
  rewrite Hv. do 3 f_equal.
  apply (head_filter_Some (λ v, models.email v = models.email u)) in Hv as [Hv Hve].
  by apply (NoDup_fmap_eq models.email (rows db)); [apply Hwf| | |].
Qed.

(** The row a commit leaves has the attributes the update asks for,
    whether or not anything had to be written. *)
Lemma stored_update_fields (user_update : schemas.UserUpdate) (now : Z) (u : User) :
  let u' := stored_update user_update now u in
  let w := spec_update user_update now u in
  models.id u' = models.id u
  ∧ models.created_at u' = models.created_at u
  ∧ models.email u' = models.email w
  ∧ models.hashed_password u' = models.hashed_password w
  ∧ models.is_active u' = models.is_active w.
Proof.
  unfold stored_update. cbn zeta. case_decide as Heq; [|done].
  unfold load in Heq. injection Heq as He Hh Ha.
  unfold spec_update.
  cbn [models.id models.created_at models.email models.hashed_password models.is_active].
  by rewrite He, Hh, Ha.
Qed.

(** An update that sets no field asks for no change. *)
Lemma update_user_nothing_set (user_id : Z) (db : Db) (u : User) :
  crud.get_user_by_id user_id db = (Ok (Some u), db) →
  crud.update_user user_id no_update db = (Ok (Some u), db).
Proof.
  intros Hget. pose proof (get_user_by_id_Some _ _ _ Hget) as [_ Hid].
  unfold crud.update_user. unfold_M. rewrite Hget.
  change (crud.update_data_of no_update db) with (@Ok dict [], db).
  cbn [fold_left]. rewrite decide_True by done. cbn [load i_id].
  by rewrite Hid.
Qed.

(** C4, as the code has it: an update that sets no field assigns no
    attribute, so the commit writes nothing: the row is returned as it was,
    [updated_at] included, and the store is left as it was. *)
Theorem update_user_empty (user_id : Z) (db : Db) (u : User) :
  crud.get_user_by_id user_id db = (Ok (Some u), db) →
  crud.update_user user_id no_update db = (Ok (Some u), db)
  ∧ crud.get_user_by_id user_id db = (Ok (Some u), db).
Proof.
  intros Hget. split; [|exact Hget]. by apply update_user_nothing_set.
Qed.

Lemma db2_reachable : reachable db2.
Proof.
  unfold db2, db1.
  eapply reachable_step; [|apply (step_tick 5)].
  eapply reachable_step; [|apply (step_create bob)].
  eapply reachable_step; [|apply (step_tick 5)].
  eapply reachable_step; [|apply (step_create alice)].
  apply reachable_empty.
Qed.

Lemma db2_wf : wf db2.
Proof. apply reachable_wf, db2_reachable. Qed.

Lemma db2_rows (r : User) :
  r ∈ rows db2 →
  r = mkUser 1 "a@x.com" (crud.hash_password "p1") true 0 None
  ∨ r = mkUser 2 "b@x.com" (crud.hash_password "p2") true 5 None.
Proof.
  intros Hr. vm_compute in Hr.
  apply elem_of_cons in Hr as [->|Hr]; [left; by vm_compute|].
  apply elem_of_cons in Hr as [->|Hr]; [right; by vm_compute|].
  by apply elem_of_nil in Hr.
Qed.

Lemma update_user_empty_witness :
  let u := mkUser 2 "b@x.com" (crud.hash_password "p2") true 5 None in
  crud.update_user 2 no_update db2 = (Ok (Some u), db2)
  ∧ crud.get_user_by_id 2 db2 = (Ok (Some u), db2).
Proof.
  apply (update_user_empty 2 db2
           (mkUser 2 "b@x.com" (crud.hash_password "p2") true 5 None)).
  vm_compute. reflexivity.
Defined.

(** C4 as stated fails for a user that was never updated: after the empty
    update [updated_at] is still absent, not a time at or after
    [created_at]. *)
Lemma update_user_empty_not_stamped :
  ∃ u', crud.update_user 2 no_update db2 = (Ok (Some u'), db2)
        ∧ models.created_at u' = 5
        ∧ models.updated_at u' = None.
Proof.
  exists (mkUser 2 "b@x.com" (crud.hash_password "p2") true 5 None).
  split; [vm_compute; reflexivity | done].
Qed.

(** A valid update of a row of a well-formed store: the row is replaced by
    the row the commit leaves, every other row stays, and the store stays
    well-formed. *)
Lemma crud_update_user_ok (user_update : schemas.UserUpdate) (db : Db) (u : User) :
  wf db → u ∈ rows db →
  carries_values user_update →
  email_available (models.id u) user_update db →
  let u' := stored_update user_update (clock db) u in
  ∃ db',
    crud.update_user (models.id u) user_update db = (Ok (Some u'), db')
    ∧ crud.get_user_by_id (models.id u) db' = (Ok (Some u'), db')
    ∧ wf db'
    ∧ clock db' = clock db
    ∧ (∀ v, v ∈ rows db' ↔ v = u' ∨ (v ∈ rows db ∧ v ≠ u)).
Proof.
  intros Hwf Hu Hv Hfree u'.
  pose proof (wf_lookup_id db u Hwf Hu) as Hget.
  pose proof (update_data_of_values user_update db Hv) as Hd.
  pose proof (setattr_values user_update db u _ Hv Hd) as Hfold.
  set (w := spec_update user_update (clock db) u) in *.
  unfold u', stored_update. fold w. cbn zeta.
  destruct (decide (load w = load u)) as [Heq|Hne].
  - (* no attribute has another value: nothing is written *)
    exists db. split.
    { unfold crud.update_user. unfold_M. rewrite Hget, Hd, Hfold.
      rewrite decide_True by exact Heq. unfold_M.
      change (i_id (load w)) with (models.id u). by rewrite Hget. }
    split; [exact Hget|]. split; [exact Hwf|]. split; [done|].
    intros v. destruct (decide (v = u)) as [->|Hvu]; [tauto|]. split; [tauto|].
    by intros [->|[Hin _]].
  - assert (Hown : ∀ r, r ∈ rows db → models.email r = models.email w →
                        models.id r = models.id u).
    { intros r Hr He. unfold w, spec_update in He. cbn [models.email] in He.
      destruct (schemas.uu_email user_update) as [|[e|]] eqn:E.
      - by apply (wf_email_owner db).
      - by apply (Hfree e).
      - by apply (wf_email_owner db). }
    set (f := λ r : User,
           if decide (models.id r = models.id u)
           then write (models.email w) (models.hashed_password w)
                      (models.is_active w) (clock db) r
           else r).
    assert (Hfu : f u = w) by (unfold f; by rewrite decide_True).
    assert (Hfid : ∀ r, models.id (f r) = models.id r)
      by (intros r; unfold f; by case_decide).
    assert (Hwrite : models.update (load w) db
                     = (Ok tt, mkDb (f <$> rows db) (next_id db) (clock db))).
    { unfold models.update. cbn [load i_email i_hashed_password i_is_active i_id].
      rewrite decide_False; [done|].
      rewrite Exists_exists. intros (r & Hr & He & Hnid). by apply Hnid, Hown. }
    assert (Hafter : crud.get_user_by_id (models.id u)
                       (mkDb (f <$> rows db) (next_id db) (clock db))
                     = (Ok (Some w), mkDb (f <$> rows db) (next_id db) (clock db))).
    { rewrite get_user_by_id_eq. cbn [rows]. rewrite head_filter_id_fmap by done.
      rewrite get_user_by_id_eq in Hget. injection Hget as ->. cbn [fmap option_fmap option_map].
      by rewrite Hfu. }
    assert (Hres : crud.update_user (models.id u) user_update db
                   = (Ok (Some w), mkDb (f <$> rows db) (next_id db) (clock db))).
    { unfold crud.update_user. unfold_M. rewrite Hget, Hd, Hfold.
      rewrite decide_False by exact Hne. rewrite Hwrite.
      change (i_id (load w)) with (models.id u). by rewrite Hafter. }
    exists (mkDb (f <$> rows db) (next_id db) (clock db)).
    split; [exact Hres|]. split; [exact Hafter|]. split.
    { assert (Hstep : wf (crud.update_user (models.id u) user_update db).2)
        by (apply (step_wf db); [apply step_crud_update | done]).
      by rewrite Hres in Hstep. }
    split; [done|].
    intros v. cbn [rows]. rewrite list_elem_of_fmap. split.
    + intros (r & -> & Hr). destruct (decide (r = u)) as [->|Hru].
      * left. exact Hfu.
      * right. unfold f. rewrite decide_False; [done|].
        intros Hid. apply Hru.
        by apply (NoDup_fmap_eq models.id (rows db)); [apply wf_ids| | |].
    + intros [->|[Hr Hvu]].
      * by exists u.
      * exists v. split; [|done]. unfold f. rewrite decide_False; [done|].
        intros Hid. apply Hvu.
        by apply (NoDup_fmap_eq models.id (rows db)); [apply wf_ids| | |].
Qed.




(** ** PUT /users/{id} *)

Lemma check_email_spec (user_id : Z) (user_update : schemas.UserUpdate) (db : Db) :
  wf db →
  (used_by_other user_id user_update db
   ∧ main.check_email user_id user_update db
     = (Raise (HTTPException 400 "Email already registered by another user"), db))
  ∨ (¬ used_by_other user_id user_update db
     ∧ main.check_email user_id user_update db = (Ok tt, db)).
Proof.
  intros Hwf. unfold main.check_email, used_by_other. unfold_M.
  destruct (schemas.value _) as [e|]; [|right; split; [|done]].
  2: { by intros (e & r & He & _). }
  case_decide as Hempty.
  { right. split; [|done]. intros (e' & r & [= <-] & Hne & _). done. }
  rewrite get_user_by_email_eq.
  destruct (head _) as [v|] eqn:E.
  - apply (head_filter_Some (λ u, models.email u = e)) in E as [Hv Hve].
    case_decide as Hid.
    + left. split; [|done]. by exists e, v.
    + right. split; [|done]. intros (e' & r & [= <-] & _ & Hr & Hre & Hrid).
      apply Hrid. rewrite <- Hid.
      apply (wf_email_owner db); try done. congruence.
  - right. split; [|done]. intros (e' & r & [= <-] & _ & Hr & Hre & _).
    by apply (proj1 (head_filter_None (λ u, models.email u = e) _) E r).
Qed.

Lemma models_update_result (o : Instance) (db : Db) :
  (models.update o db).1 = Ok tt ∨ (models.update o db).1 = Raise IntegrityError.
Proof.
  unfold models.update.
  destruct (i_email o), (i_hashed_password o); auto.
  case_decide; auto.
Qed.

Lemma crud_update_user_status (user_id : Z) (user_update : schemas.UserUpdate) (db : Db) :
  ∀ s d, (crud.update_user user_id user_update db).1 ≠ Raise (HTTPException s d).
Proof.
  intros s d. unfold crud.update_user. unfold_M. rewrite get_user_by_id_eq.
  destruct (head _) as [u|]; [|done].
  assert (Hd : ∀ s d, (crud.update_data_of user_update db).1 ≠ Raise (HTTPException s d)).
  { intros s' d'. unfold crud.update_data_of. destruct (dict_in _ _); [|done].
    unfold crud.hash_password_value. unfold_M. by destruct (default VNone _). }
  destruct (crud.update_data_of user_update db) as [[dd|e] db0].
  - case_decide; [done|].
    match goal with
    | |- context [models.update ?o db0] =>
        destruct (models_update_result o db0) as [Hr|Hr];
        destruct (models.update o db0) as [[[]|e] db1]; simpl in Hr; try done
    end.
    injection Hr as ->. done.
  - intros Heq. apply (Hd s d). simpl in *. congruence.
Qed.

(** C5, as the code has it: the route checks the email before it looks
    for the id.  Its answer is 400 exactly when the body's email is held
    by a row with another id; and when no row has the id, the answer is
    that 400 if the body's email is held by some row, and 404 otherwise. *)
Theorem put_user_status (user_id : Z) (user_update : schemas.UserUpdate) (db : Db) :
  wf db →
  (status_code (app.PUT_user user_id user_update db).1 = 400
   ↔ used_by_other user_id user_update db)
  ∧ ((∃ u, u ∈ rows db ∧ models.id u = user_id)
     ∨ (used_by_other user_id user_update db
        ∧ app.PUT_user user_id user_update db = (email_taken, db))
     ∨ (¬ used_by_other user_id user_update db
        ∧ app.PUT_user user_id user_update db = (not_found, db))).
Proof.
  intros Hwf.
  destruct (check_email_spec user_id user_update db Hwf) as [[Hused Hc]|[Hfree Hc]].
  - assert (Hput : app.PUT_user user_id user_update db = (email_taken, db)).
    { unfold app.PUT_user, respond, main.update_user. unfold_M. by rewrite Hc. }
    split; [by rewrite Hput | right; left; done].
  - split.
    + split; [|done]. intros Hs. exfalso.
      unfold app.PUT_user, respond, main.update_user in Hs. unfold_M.
      rewrite Hc in Hs.
      pose proof (crud_update_user_status user_id user_update db) as Hne.
      destruct (crud.update_user user_id user_update db) as [[[v|]|e] db'];
        simpl in Hs; try done.
      destruct e; try done. by destruct (Hne status_code0 detail).
    + destruct (head (filter (λ u, models.id u = user_id) (rows db))) as [u|] eqn:E.
      * left. exists u. by apply (head_filter_Some (λ u, models.id u = user_id)).
      * right. right. split; [done|].
        unfold app.PUT_user, respond, main.update_user, crud.update_user.
        unfold_M. by rewrite Hc, get_user_by_id_eq, E.
Qed.

Lemma put_user_status_witness :
  (status_code (app.PUT_user 3 take_email db2).1 = 400
   ↔ used_by_other 3 take_email db2)
  ∧ ((∃ u, u ∈ rows db2 ∧ models.id u = 3)
     ∨ (used_by_other 3 take_email db2
        ∧ app.PUT_user 3 take_email db2 = (email_taken, db2))
     ∨ (¬ used_by_other 3 take_email db2
        ∧ app.PUT_user 3 take_email db2 = (not_found, db2))).
Proof. apply (put_user_status 3 take_email db2). apply db2_wf. Defined.

(** C5 as stated fails where the id is unknown and the body's email
    belongs to an existing user: the answer is 400, not 404. *)
Lemma put_unknown_id_taken_email :
  (∀ u, u ∈ rows db2 → models.id u ≠ 3)
  ∧ app.PUT_user 3 take_email db2 = (email_taken, db2)
  ∧ status_code (app.PUT_user 3 take_email db2).1 ≠ 404.
Proof.
  split.
  - intros u Hu. apply db2_rows in Hu as [-> | ->]; simpl; lia.
  - split; [vm_compute; reflexivity|]. vm_compute. discriminate.
Qed.

(** ** Listing users *)

Lemma ids_pages (l : list User) :
  NoDup (models.id <$> l) →
  ids (take 2 l) ## ids (take 2 (drop 2 l))
  ∧ size (ids (take 2 l) ∪ ids (take 2 (drop 2 l))) = (4 `min` length l)%nat.
Proof.
  intros Hnd.
  assert (Happ : (models.id <$> take 2 l) ++ (models.id <$> take 2 (drop 2 l))
                 = models.id <$> take 4 l).
  { rewrite <- fmap_app. f_equal. apply (take_take_drop l 2 2). }
  assert (Hnd4 : NoDup (models.id <$> take 4 l)).
  { rewrite fmap_take. eapply sublist_NoDup; [exact Hnd | apply sublist_take]. }
  pose proof Hnd4 as Hnd'. rewrite <- Happ in Hnd'.
  apply NoDup_app in Hnd' as (_ & Hdisj & _).
  split.
  - unfold ids. apply elem_of_disjoint. intros x Hx Hy.
    apply elem_of_list_to_set in Hx, Hy. by apply (Hdisj x).
  - unfold ids. rewrite <- list_to_set_app_L, Happ.
    rewrite size_list_to_set by done.
    by rewrite length_fmap, length_take.
Qed.

(** C7: [get_users] returns the rows (held in ascending order of their
    ids) with [skip] rows dropped and at most [limit] rows taken; the count
    is the number of all rows, whatever [skip] and [limit] are, and the
    route pairs the two; the pages [(0, 2)] and [(2, 2)] have disjoint sets
    of ids whose union has [min 4 N] elements for [N] rows. *)
Theorem get_users_pagination (db : Db) (skip limit : nat) (sk li : Z) :
  wf db →
  let N := length (rows db) in
  crud.get_users skip limit db = (Ok (take limit (drop skip (rows db))), db)
  ∧ StronglySorted Z.lt (models.id <$> rows db)
  ∧ crud.get_users_count db = (Ok (Z.of_nat N), db)
  ∧ (0 ≤ sk → 1 ≤ li ≤ 1000 →
     ∃ resp, main.get_users sk li db = (Ok resp, db)
             ∧ schemas.users resp
               = schemas.from_attributes
                   <$> take (Z.to_nat li) (drop (Z.to_nat sk) (rows db))
             ∧ schemas.total resp = Z.of_nat N)
  ∧ ∃ page1 page2,
      crud.get_users 0 2 db = (Ok page1, db)
      ∧ crud.get_users 2 2 db = (Ok page2, db)
      ∧ ids page1 ## ids page2
      ∧ size (ids page1 ∪ ids page2) = (4 `min` N)%nat.
Proof.
  intros Hwf N. split; [done|]. split; [apply Hwf|]. split; [done|]. split.
  - intros Hsk Hli. eexists. unfold main.get_users.
    rewrite bool_decide_true by lia. unfold_M. simpl. done.
  - exists (take 2 (rows db)), (take 2 (drop 2 (rows db))).
    split; [done|]. split; [done|]. by apply ids_pages, wf_ids.
Qed.

Lemma get_users_pagination_witness :
  crud.get_users 1 1 db2 = (Ok (take 1 (drop 1 (rows db2))), db2)
  ∧ StronglySorted Z.lt (models.id <$> rows db2)
  ∧ crud.get_users_count db2 = (Ok (Z.of_nat (length (rows db2))), db2)
  ∧ (0 ≤ 1 → 1 ≤ 1 ≤ 1000 →
     ∃ resp, main.get_users 1 1 db2 = (Ok resp, db2)
             ∧ schemas.users resp
               = schemas.from_attributes
                   <$> take (Z.to_nat 1) (drop (Z.to_nat 1) (rows db2))
             ∧ schemas.total resp = Z.of_nat (length (rows db2)))
  ∧ ∃ page1 page2,
      crud.get_users 0 2 db2 = (Ok page1, db2)
      ∧ crud.get_users 2 2 db2 = (Ok page2, db2)
      ∧ ids page1 ## ids page2
      ∧ size (ids page1 ∪ ids page2) = (4 `min` length (rows db2))%nat.
Proof. apply (get_users_pagination db2 1 1 1 1). apply db2_wf. Defined.

(** ** What the user routes return *)

Lemma respond_answers {A : Type} (success : Z) (to_json : A → Json)
    (shape : Json → Prop) (handler : M A) (db : Db) :
  success ≠ 422 → success ≠ 500 →
  (∀ s d, (handler db).1 = Raise (HTTPException s d) → s ≠ success) →
  (∀ a, shape (to_json a)) →
  answers success shape (respond success to_json handler db).1.
Proof.
  intros H422 H500 Hexn Hshape. unfold respond, answers.
  destruct (handler db) as [[a|e] db']; simpl.
  - left. done.
  - right. destruct e as [| | |s d]; simpl; unfold error_body; simpl.
    + split; [congruence | by right].
    + split; [congruence | by right].
    + split; [congruence | by left].
    + split; [by apply (Hexn s d) | by left].
Qed.

Lemma as_User_body (u : models.User) : user_body (app.as_User u).
Proof. by exists (schemas.from_attributes u). Qed.

(** C9: each user route (create, get by id, get by email, list, update)
    answers either its success status with users in the output model's
    representation, or another status with an error body; and that
    representation has the members email, id, is_active, created_at and
    updated_at only, so neither [hashed_password] nor [password]. *)
Theorem user_routes_hide_password
    (db : Db) (user : schemas.UserCreate) (user_id : Z) (email : string)
    (skip limit : Z) (user_update : schemas.UserUpdate) :
  answers 201 user_body (app.POST_users user db).1
  ∧ answers 200 user_body (app.GET_user user_id db).1
  ∧ answers 200 user_body (app.GET_user_by_email email db).1
  ∧ answers 200 users_list_body (app.GET_users skip limit db).1
  ∧ answers 200 user_body (app.PUT_user user_id user_update db).1
  ∧ ∀ j, user_body j →
      keys j = ["email"; "id"; "is_active"; "created_at"; "updated_at"]
      ∧ ("hashed_password" ∉ keys j) ∧ ("password" ∉ keys j).
Proof.
  split; [|split; [|split; [|split; [|split]]]].
  - apply respond_answers; try done; [|apply as_User_body].
    intros s d. unfold main.create_user. unfold_M. rewrite get_user_by_email_eq.
    destruct (head _); [by intros [= <- _]|].
    unfold crud.create_user. unfold_M. unfold models.insert.
    by case_decide.
  - apply respond_answers; try done; [|apply as_User_body].
    intros s d. unfold main.get_user. unfold_M. rewrite get_user_by_id_eq.
    destruct (head _); [done | by intros [= <- _]].
  - apply respond_answers; try done; [|apply as_User_body].
    intros s d. unfold main.get_user_by_email. unfold_M.
    rewrite get_user_by_email_eq.
    destruct (head _); [done | by intros [= <- _]].
  - apply respond_answers; try done.
    + intros s d. unfold main.get_users. by case_bool_decide.
    + intros [msg us total]. by exists msg, us, total.
  - apply respond_answers; try done; [|apply as_User_body].
    intros s d. unfold main.update_user. unfold_M.
    pose proof (check_email_db user_id user_update db) as Hdb.
    assert (Hc : ∀ s d, (main.check_email user_id user_update db).1
                        = Raise (HTTPException s d) → s = 400).
    { intros s' d'. unfold main.check_email. unfold_M.
      destruct (schemas.value _); [|done]. case_decide; [done|].
      rewrite get_user_by_email_eq. destruct (head _); [|done].
      case_decide; [by intros [= <- _] | done]. }
    destruct (main.check_email user_id user_update db) as [[[]|e] db0].
    + simpl in Hdb. subst db0.
      pose proof (crud_update_user_status user_id user_update db) as Hne.
      destruct (crud.update_user user_id user_update db) as [[[v|]|e] db1];
        simpl; [done | by intros [= <- _] |].
      intros [= ->]. by destruct (Hne s d).
    + simpl. intros [= ->]. by rewrite (Hc s d).
  - intros j [u ->]. split; [done|]. simpl.
    split; intros Hin; repeat (apply elem_of_cons in Hin as [Hin|Hin]; [done|]);
      by apply elem_of_nil in Hin.
Qed.

(** ** Password hashing *)

Example sha256_empty :
  SHA256.hexdigest ""
  = "e3b0c44298fc1c149afbf4c8996fb92427ae41e4649b934ca495991b7852b855".
Proof. vm_compute. reflexivity. Qed.

Example sha256_abc :
  SHA256.hexdigest "abc"
  = "ba7816bf8f01cfea414140de5dae2223b00361a396177a9cb410ff61f20015ad".
Proof. vm_compute. reflexivity. Qed.

Example sha256_two_blocks :
  SHA256.hexdigest "abcdbcdecdefdefgefghfghighijhijkijkljklmklmnlmnomnopnopq"
  = "248d6a61d20638b8e5c026930c3e6039a33ce45964ff2167f6ecedd419db06c1".
Proof. vm_compute. reflexivity. Qed.

Example sha256_full_block :
  SHA256.hexdigest "aaaaaaaaaaaaaaaaaaaaaaaaaaaaaaaaaaaaaaaaaaaaaaaaaaaaaaaaaaaaaaaa"
  = "ffe054fe7ae0cb6dc65c3af9b61d5209f439851db43d0ba5997337df154668eb".
Proof. vm_compute. reflexivity. Qed.

(** tests/test_crud_operations.py, [test_password_hashing]. *)
Example test_password_hashing :
  let password := "testpassword123" in
  let hashed := crud.hash_password password in
  hashed ≠ password
  ∧ crud.verify_password password hashed = true
  ∧ crud.verify_password "wrongpassword" hashed = false.
Proof. vm_compute. repeat split; discriminate. Qed.

Lemma verify_password_iff (plain_password hashed_password : string) :
  crud.verify_password plain_password hashed_password = true
  ↔ crud.hash_password plain_password = hashed_password.
Proof. unfold crud.verify_password. apply bool_decide_eq_true. Qed.

Lemma verify_password_hash (password : string) :
  crud.verify_password password (crud.hash_password password) = true.
Proof. by apply verify_password_iff. Qed.

(** The digest is 64 characters long, whatever was hashed. *)
Lemma hash_password_length (password : string) :
  String.length (crud.hash_password password) = 64%nat.
Proof.
  unfold crud.hash_password, SHA256.hexdigest.
  generalize (SHA256.digest (SHA256.encode password)). intros st. reflexivity.
Qed.

(** A user that was created is found by email, with the digest of the
    password stored, against which the password verifies. *)
Lemma create_then_find (user : schemas.UserCreate) (db : Db) (u : User) (db' : Db) :
  main.create_user user db = (Ok u, db') ∨ crud.create_user user db = (Ok u, db') →
  crud.get_user_by_email (schemas.uc_email user) db' = (Ok (Some u), db')
  ∧ models.hashed_password u = crud.hash_password (schemas.uc_password user)
  ∧ crud.verify_password (schemas.uc_password user) (models.hashed_password u) = true.
Proof.
  intros Hcreate.
  assert (Hins : models.insert (schemas.uc_email user)
                   (crud.hash_password (schemas.uc_password user)) db = (Ok u, db')).
  { destruct Hcreate as [H|H]; [|exact H].
    unfold main.create_user in H. unfold_M. rewrite get_user_by_email_eq in H.
    by destruct (head _). }
  destruct (count_email_insert _ _ _ _ _ Hins) as (Hfresh & Hdb & Hu).
  assert (Hh : models.hashed_password u = crud.hash_password (schemas.uc_password user))
    by (by rewrite Hu).
  split; [|split; [exact Hh | rewrite Hh; apply verify_password_hash]].
  rewrite get_user_by_email_eq. do 2 f_equal. rewrite Hdb. cbn [rows].
  rewrite filter_app, (filter_nil_iff _ (rows db)) by done.
  simpl. rewrite filter_cons. rewrite decide_True; [done | by rewrite Hu].
Qed.

(** * Further properties of the service *)

Arguments crud.hash_password : simpl never.
Arguments crud.verify_password : simpl never.

(** ** Looking a user up *)

(** X1: in a store that keeps the table invariants, each row is what the
    route by id returns for its id and what the route by email returns for
    its email: the two lookups agree, and neither changes the store. *)
Theorem lookups_agree (db : Db) (u : User) :
  wf db → u ∈ rows db →
  app.GET_user (models.id u) db = (mkResponse 200 (app.as_User u), db)
  ∧ app.GET_user_by_email (models.email u) db = (mkResponse 200 (app.as_User u), db).
Proof.
  intros Hwf Hu.
  assert (Hid : crud.get_user_by_id (models.id u) db = (Ok (Some u), db)).
  { rewrite get_user_by_id_eq.
    destruct (head_filter_is_Some (λ v, models.id v = models.id u) (rows db) u Hu eq_refl)
      as [v Hv].
    rewrite Hv. do 3 f_equal.
    apply (head_filter_Some (λ v, models.id v = models.id u)) in Hv as [Hv Hvid].
    by apply (NoDup_fmap_eq models.id (rows db)); [apply wf_ids| | |]. }
  assert (He : crud.get_user_by_email (models.email u) db = (Ok (Some u), db)).
  { rewrite get_user_by_email_eq.
    destruct (head_filter_is_Some (λ v, models.email v = models.email u) (rows db) u Hu eq_refl)
      as [v Hv].
    rewrite Hv. do 3 f_equal.
    apply (head_filter_Some (λ v, models.email v = models.email u)) in Hv as [Hv Hve].
    by apply (NoDup_fmap_eq models.email (rows db)); [apply Hwf| | |]. }
  split.
  - unfold app.GET_user, respond, main.get_user. unfold_M. by rewrite Hid.
  - unfold app.GET_user_by_email, respond, main.get_user_by_email. unfold_M.
    by rewrite He.
Qed.

Lemma lookups_agree_witness :
  let u := mkUser 2 "b@x.com" (crud.hash_password "p2") true 5 None in
  app.GET_user 2 db2 = (mkResponse 200 (app.as_User u), db2)
  ∧ app.GET_user_by_email "b@x.com" db2 = (mkResponse 200 (app.as_User u), db2).
Proof.
  apply (lookups_agree db2 (mkUser 2 "b@x.com" (crud.hash_password "p2") true 5 None)).
  - apply db2_wf.
  - vm_compute. right. left.
Defined.

(** X2: the route by id answers 404 "User not found" exactly when no row
    has the id, and the route by email exactly when no row has the email
    (compared as stored, case-sensitively). *)
Theorem lookup_not_found (db : Db) (user_id : Z) (email : string) :
  (app.GET_user user_id db = (not_found, db)
   ↔ ∀ u, u ∈ rows db → models.id u ≠ user_id)
  ∧ (app.GET_user_by_email email db = (not_found, db)
     ↔ ∀ u, u ∈ rows db → models.email u ≠ email).
Proof.
  split.
  - rewrite <- get_user_by_id_None.
    unfold app.GET_user, respond, main.get_user. unfold_M.
    rewrite get_user_by_id_eq. destruct (head _); split; done.
  - rewrite <- get_user_by_email_None.
    unfold app.GET_user_by_email, respond, main.get_user_by_email. unfold_M.
    rewrite get_user_by_email_eq. destruct (head _); split; done.
Qed.

(** ** Creating and deleting through the routes *)

Lemma wf_fresh_id (db : Db) (r : User) : wf db → r ∈ rows db → models.id r ≠ next_id db.
Proof.
  intros [_ _ Hn _] Hr. rewrite Forall_forall in Hn. specialize (Hn r Hr).
  simpl in Hn. lia.
Qed.

Lemma main_create_user_fresh (user : schemas.UserCreate) (db : Db) :
  (∀ r, r ∈ rows db → models.email r ≠ schemas.uc_email user) →
  let u := mkUser (next_id db) (schemas.uc_email user)
                  (crud.hash_password (schemas.uc_password user)) true (clock db) None in
  main.create_user user db
  = (Ok u, mkDb (rows db ++ [u]) (next_id db + 1) (clock db)).
Proof.
  intros Hfresh u. unfold main.create_user. unfold_M.
  rewrite (proj2 (get_user_by_email_None _ _) Hfresh).
  unfold crud.create_user. unfold_M. unfold models.insert.
  rewrite decide_False; [done|].
  intros Hin. apply list_elem_of_fmap in Hin as (r & He & Hr).
  by apply (Hfresh r).
Qed.

Lemma main_delete_user_present (db : Db) (u : User) :
  u ∈ rows db →
  main.delete_user (models.id u) db
  = (Ok (JObj [("message", JStr "User deleted successfully")]),
     models.delete (models.id u) db).
Proof.
  intros Hu. unfold main.delete_user, crud.delete_user. unfold_M.
  rewrite get_user_by_id_eq.
  destruct (head_filter_is_Some (λ v, models.id v = models.id u) (rows db) u Hu eq_refl)
    as [v Hv].
  rewrite Hv.
  apply (head_filter_Some (λ v, models.id v = models.id u)) in Hv as [_ Hvid].
  by rewrite Hvid.
Qed.

(** X3: in a store that keeps the table invariants, a create for an email
    no row has answers 201 with the new user: the email as given, the
    digest of the password stored, active, never updated, under an id no
    other row has.  The table gains this row at its end and nothing else
    changes in it, and the row is found by its id. *)
Theorem create_user_success (user : schemas.UserCreate) (db : Db) :
  wf db →
  (∀ r, r ∈ rows db → models.email r ≠ schemas.uc_email user) →
  ∃ u db',
    main.create_user user db = (Ok u, db')
    ∧ app.POST_users user db = (mkResponse 201 (app.as_User u), db')
    ∧ models.email u = schemas.uc_email user
    ∧ models.hashed_password u = crud.hash_password (schemas.uc_password user)
    ∧ models.is_active u = true
    ∧ models.updated_at u = None
    ∧ (∀ r, r ∈ rows db → models.id r ≠ models.id u)
    ∧ rows db' = rows db ++ [u]
    ∧ crud.get_user_by_id (models.id u) db' = (Ok (Some u), db')
    ∧ wf db'.
Proof.
  intros Hwf Hfresh.
  pose proof (main_create_user_fresh user db Hfresh) as Hmain. simpl in Hmain.
  set (u := mkUser (next_id db) (schemas.uc_email user)
                   (crud.hash_password (schemas.uc_password user)) true (clock db) None)
    in *.
  set (db' := mkDb (rows db ++ [u]) (next_id db + 1) (clock db)) in *.
  assert (Hwf' : wf (main.create_user user db).2)
    by (apply (step_wf db); [apply step_create | done]).
  rewrite Hmain in Hwf'. cbn [snd] in Hwf'.
  exists u, db'. split; [exact Hmain|]. split.
  { unfold app.POST_users, respond. by rewrite Hmain. }
  do 4 (split; [done|]). split.
  { intros r Hr. by apply wf_fresh_id. }
  split; [done|]. split; [|exact Hwf'].
  rewrite get_user_by_id_eq. do 2 f_equal. cbn [rows db'].
  rewrite filter_app, (filter_nil_iff _ (rows db)).
  - simpl. rewrite filter_cons. by rewrite decide_True.
  - intros r Hr. by apply wf_fresh_id.
Qed.

Lemma create_user_success_witness :
  ∃ u db',
    main.create_user (schemas.mkUserCreate "c@x.com" "p3") db2 = (Ok u, db')
    ∧ app.POST_users (schemas.mkUserCreate "c@x.com" "p3") db2
      = (mkResponse 201 (app.as_User u), db')
    ∧ models.email u = "c@x.com"
    ∧ models.hashed_password u = crud.hash_password "p3"
    ∧ models.is_active u = true
    ∧ models.updated_at u = None
    ∧ (∀ r, r ∈ rows db2 → models.id r ≠ models.id u)
    ∧ rows db' = rows db2 ++ [u]
    ∧ crud.get_user_by_id (models.id u) db' = (Ok (Some u), db')
    ∧ wf db'.
Proof.
  apply (create_user_success (schemas.mkUserCreate "c@x.com" "p3") db2).
  - apply db2_wf.
  - intros r Hr. apply db2_rows in Hr as [-> | ->]; discriminate.
Defined.

(** X4: in a store that keeps the table invariants, deleting an existing
    user through the route answers 200, removes that row and no other, and
    leaves the invariants in place; the id then answers 404, and the user's
    email can be registered again. *)
Theorem delete_user_route (db : Db) (u : User) (password : string) :
  wf db → u ∈ rows db →
  let db' := models.delete (models.id u) db in
  app.DELETE_user (models.id u) db
  = (mkResponse 200 (JObj [("message", JStr "User deleted successfully")]), db')
  ∧ (∀ v, v ∈ rows db' ↔ v ∈ rows db ∧ v ≠ u)
  ∧ wf db'
  ∧ app.GET_user (models.id u) db' = (not_found, db')
  ∧ status_code (app.POST_users (schemas.mkUserCreate (models.email u) password) db').1
    = 201.
Proof.
  intros Hwf Hu db'.
  assert (Hrows : ∀ v, v ∈ rows db' ↔ v ∈ rows db ∧ v ≠ u).
  { intros v. unfold db'. simpl. rewrite list_elem_of_filter. split.
    - intros [Hne Hv]. split; [done|]. by intros ->.
    - intros [Hv Hne]. split; [|done]. intros Hid. apply Hne.
      by apply (NoDup_fmap_eq models.id (rows db)); [apply wf_ids| | |]. }
  assert (Hwf' : wf db') by (by apply delete_wf).
  split.
  { unfold app.DELETE_user, respond. by rewrite main_delete_user_present. }
  split; [exact Hrows|]. split; [exact Hwf'|]. split.
  { unfold app.GET_user, respond, main.get_user. unfold_M.
    rewrite (proj2 (get_user_by_id_None (models.id u) db')); [done|].
    intros v Hv. apply Hrows in Hv as [Hv Hne]. intros Hid. apply Hne.
    by apply (NoDup_fmap_eq models.id (rows db)); [apply wf_ids| | |]. }
  unfold app.POST_users, respond. rewrite main_create_user_fresh; [done|].
  intros r Hr He. apply Hrows in Hr as [Hr Hne]. apply Hne.
  by apply (NoDup_fmap_eq models.email (rows db)); [apply Hwf| | |].
Qed.

Lemma delete_user_route_witness :
  let u := mkUser 1 "a@x.com" (crud.hash_password "p1") true 0 None in
  let db' := models.delete 1 db2 in
  app.DELETE_user 1 db2
  = (mkResponse 200 (JObj [("message", JStr "User deleted successfully")]), db')
  ∧ (∀ v, v ∈ rows db' ↔ v ∈ rows db2 ∧ v ≠ u)
  ∧ wf db'
  ∧ app.GET_user 1 db' = (not_found, db')
  ∧ status_code (app.POST_users (schemas.mkUserCreate "a@x.com" "again") db').1 = 201.
Proof.
  apply (delete_user_route db2 (mkUser 1 "a@x.com" (crud.hash_password "p1") true 0 None)
           "again").
  - apply db2_wf.
  - vm_compute. left.
Defined.

(** ** Listing through the route *)


(** X6: consecutive pages join into the larger page, a page that starts at
    or after the end of the table is empty, and a page from the start that
    is at least as long as the table is the whole table. *)
Theorem get_users_pages_compose (db : Db) (skip n m k : nat) :
  (∃ p1 p2 p,
     crud.get_users skip n db = (Ok p1, db)
     ∧ crud.get_users (skip + n) m db = (Ok p2, db)
     ∧ crud.get_users skip (n + m) db = (Ok p, db)
     ∧ p = p1 ++ p2)
  ∧ crud.get_users (length (rows db) + k) n db = (Ok [], db)
  ∧ crud.get_users 0 (length (rows db) + k) db = (Ok (rows db), db).
Proof.
  split; [|split].
  - do 3 eexists. do 3 (split; [reflexivity|]).
    rewrite <- drop_drop. symmetry. apply take_take_drop.
  - unfold crud.get_users. unfold_M. do 2 f_equal.
    rewrite drop_ge by lia. apply take_nil.
  - unfold crud.get_users. unfold_M. do 2 f_equal.
    rewrite drop_0. apply take_ge. lia.
Qed.

(** ** Requests that fail *)

Lemma models_update_cases (o : Instance) (db : Db) :
  (∃ db', models.update o db = (Ok tt, db'))
  ∨ models.update o db = (Raise IntegrityError, db).
Proof.
  unfold models.update.
  destruct (i_email o), (i_hashed_password o); auto.
  case_decide; eauto.
Qed.

Lemma fold_setattr_id (d : dict) (o : Instance) :
  i_id (fold_left (λ o '(field, value), setattr o field value) d o) = i_id o.
Proof.
  revert o. induction d as [|[k v] d IH]; intros o; [done|].
  simpl. rewrite IH. unfold setattr. repeat case_decide; try done.
  by destruct v.
Qed.



(** ** Updates through the store and the route *)

Lemma email_available_free (user_id : Z) (user_update : schemas.UserUpdate) (db : Db) :
  email_available user_id user_update db → ¬ used_by_other user_id user_update db.
Proof.
  intros Hfree (e & r & Hval & _ & Hr & He & Hne). apply Hne.
  destruct (schemas.uu_email user_update) as [|[e'|]] eqn:E; try done.
  simpl in Hval. injection Hval as ->. by apply (Hfree e).
Qed.

Lemma put_user_ok (user_update : schemas.UserUpdate) (db : Db) (u : User) :
  wf db → u ∈ rows db →
  carries_values user_update →
  email_available (models.id u) user_update db →
  let u' := stored_update user_update (clock db) u in
  ∃ db',
    app.PUT_user (models.id u) user_update db = (mkResponse 200 (app.as_User u'), db')
    ∧ crud.get_user_by_id (models.id u) db' = (Ok (Some u'), db')
    ∧ wf db'
    ∧ clock db' = clock db
    ∧ (∀ v, v ∈ rows db' ↔ v = u' ∨ (v ∈ rows db ∧ v ≠ u)).
Proof.
  intros Hwf Hu Hv Hfree u'.
  destruct (crud_update_user_ok user_update db u Hwf Hu Hv Hfree)
    as (db' & Hupd & Hrest).
  exists db'. split; [|exact Hrest].
  unfold app.PUT_user, respond, main.update_user. unfold_M.
  destruct (check_email_spec (models.id u) user_update db Hwf) as [[Hused _]|[_ ->]].
  - by destruct (email_available_free _ _ _ Hfree).
  - by rewrite Hupd.
Qed.

(** ** Logging in after other requests *)

(** X8: a user created for an email no row had can log in with the same
    credentials at any later time: the answer is 200 with the id the create
    returned and the email. *)
Theorem login_after_create (user : schemas.UserCreate) (dt : N) (db : Db) :
  (∀ r, r ∈ rows db → models.email r ≠ schemas.uc_email user) →
  ∃ u db',
    main.create_user user db = (Ok u, db')
    ∧ app.POST_auth_login user (tick dt db') = (login_successful u, tick dt db').
Proof.
  intros Hfresh. pose proof (main_create_user_fresh user db Hfresh) as Hmain.
  simpl in Hmain. do 2 eexists. split; [exact Hmain|].
  unfold app.POST_auth_login, respond, main.login, crud.authenticate_user.
  unfold_M. rewrite get_user_by_email_eq. cbn [rows tick].
  rewrite filter_app, (filter_nil_iff _ (rows db)) by done.
  simpl. rewrite filter_cons, decide_True by done.
  cbn [head models.hashed_password]. rewrite verify_password_hash.
  reflexivity.
Qed.

Lemma login_after_create_witness :
  ∃ u db',
    main.create_user (schemas.mkUserCreate "c@x.com" "p3") db2 = (Ok u, db')
    ∧ app.POST_auth_login (schemas.mkUserCreate "c@x.com" "p3") (tick 7 db')
      = (login_successful u, tick 7 db').
Proof.
  apply (login_after_create (schemas.mkUserCreate "c@x.com" "p3") 7 db2).
  intros r Hr. apply db2_rows in Hr as [-> | ->]; discriminate.
Defined.

(** X9: in a store that keeps the table invariants, once a user has been
    deactivated through the update route, a login with the user's email
    and a password that verifies answers 400 "Inactive user". *)
Theorem login_after_deactivate (db : Db) (u : User) (password : string) :
  wf db → u ∈ rows db →
  crud.verify_password password (models.hashed_password u) = true →
  ∃ u' db',
    app.PUT_user (models.id u) deactivate db = (mkResponse 200 (app.as_User u'), db')
    ∧ models.is_active u' = false
    ∧ app.POST_auth_login (schemas.mkUserCreate (models.email u) password) db'
      = (inactive, db').
Proof.
  intros Hwf Hu Hverify.
  destruct (put_user_ok deactivate db u Hwf Hu) as (db' & Hput & _ & Hwf' & _ & Hrows).
  { split; discriminate. }
  { intros e r He. discriminate He. }
  pose proof (stored_update_fields deactivate (clock db) u) as (_ & _ & He & Hh & Ha).
  cbv zeta in He, Hh, Ha. unfold spec_update, deactivate in He, Hh, Ha.
  cbn [models.email models.hashed_password models.is_active
       schemas.uu_email schemas.uu_password schemas.uu_is_active] in He, Hh, Ha.
  set (u' := stored_update _ (clock db) u) in *.
  exists u', db'. split; [exact Hput|]. split; [exact Ha|].
  assert (Hlook : crud.get_user_by_email (models.email u) db' = (Ok (Some u'), db')).
  { rewrite <- He. apply (wf_lookup_email db' u' Hwf'). apply Hrows. by left. }
  unfold app.POST_auth_login, respond, main.login, crud.authenticate_user.
  unfold_M. cbn [schemas.uc_email schemas.uc_password]. rewrite Hlook.
  rewrite Hh, Hverify. cbn [negb]. by rewrite Ha.
Qed.

Lemma login_after_deactivate_witness :
  ∃ u' db',
    app.PUT_user 2 deactivate db2 = (mkResponse 200 (app.as_User u'), db')
    ∧ models.is_active u' = false
    ∧ app.POST_auth_login (schemas.mkUserCreate "b@x.com" "p2") db' = (inactive, db').
Proof.
  apply (login_after_deactivate db2
           (mkUser 2 "b@x.com" (crud.hash_password "p2") true 5 None) "p2").
  - apply db2_wf.
  - vm_compute. right. left.
  - vm_compute. reflexivity.
Defined.

(** X10: in a store that keeps the table invariants, after a user's
    password has been changed, a password authenticates for the user's
    email exactly when its digest is the digest of the new password: the
    new password does, and the old one does no longer unless it has the
    same digest. *)
Theorem authenticate_after_password_change (db : Db) (u : User) (new_password : string) :
  wf db → u ∈ rows db →
  ∃ u' db',
    crud.update_user (models.id u) (set_password new_password) db = (Ok (Some u'), db')
    ∧ crud.authenticate_user (models.email u) new_password db' = (Ok (Some u'), db')
    ∧ ∀ password,
        crud.hash_password password ≠ crud.hash_password new_password →
        crud.authenticate_user (models.email u) password db' = (Ok None, db').
Proof.
  intros Hwf Hu.
  destruct (crud_update_user_ok (set_password new_password) db u Hwf Hu)
    as (db' & Hupd & _ & Hwf' & _ & Hrows).
  { split; discriminate. }
  { intros e r He. discriminate He. }
  pose proof (stored_update_fields (set_password new_password) (clock db) u)
    as (_ & _ & He & Hh & _).
  cbv zeta in He, Hh. unfold spec_update, set_password in He, Hh.
  cbn [models.email models.hashed_password
       schemas.uu_email schemas.uu_password schemas.uu_is_active] in He, Hh.
  set (u' := stored_update _ (clock db) u) in *.
  exists u', db'. split; [exact Hupd|].
  assert (Hlook : crud.get_user_by_email (models.email u) db' = (Ok (Some u'), db')).
  { rewrite <- He. apply (wf_lookup_email db' u' Hwf'). apply Hrows. by left. }
  split.
  - unfold crud.authenticate_user. unfold_M. rewrite Hlook, Hh.
    by rewrite verify_password_hash.
  - intros password Hne. unfold crud.authenticate_user. unfold_M. rewrite Hlook, Hh.
    unfold crud.verify_password. by rewrite bool_decide_false.
Qed.

Lemma authenticate_after_password_change_witness :
  ∃ u' db',
    crud.update_user 2 (set_password "new") db2 = (Ok (Some u'), db')
    ∧ crud.authenticate_user "b@x.com" "new" db' = (Ok (Some u'), db')
    ∧ ∀ password,
        crud.hash_password password ≠ crud.hash_password "new" →
        crud.authenticate_user "b@x.com" password db' = (Ok None, db').
Proof.
  apply (authenticate_after_password_change db2
           (mkUser 2 "b@x.com" (crud.hash_password "p2") true 5 None) "new").
  - apply db2_wf.
  - vm_compute. right. left.
Defined.

(** ** What an update leaves alone and what it moves *)

(** The table after [update_user], however it ends: each row is mapped to a
    row with the same id, and rows with another id are mapped to
    themselves. *)
Lemma crud_update_user_rows (user_id : Z) (user_update : schemas.UserUpdate) (db : Db) :
  ∃ f : User → User,
    rows (crud.update_user user_id user_update db).2 = f <$> rows db
    ∧ (∀ r, models.id (f r) = models.id r)
    ∧ (∀ r, models.id r ≠ user_id → f r = r).
Proof.
  assert (Hsame : ∀ db0 : Db, rows db0 = (λ r : User, r) <$> rows db0)
    by (intros; by rewrite list_fmap_id).
  unfold crud.update_user. unfold_M. rewrite get_user_by_id_eq.
  destruct (head _) as [u|] eqn:E; [|by exists (λ r, r)].
  apply (head_filter_Some (λ v, models.id v = user_id)) in E as [_ Hu].
  pose proof (update_data_of_db user_update db) as Hd.
  destruct (crud.update_data_of user_update db) as [[d|e] db0];
    cbn [snd] in Hd; subst db0; [|by exists (λ r, r)].
  set (o := fold_left _ d (load u)).
  assert (Hio : i_id o = user_id) by (unfold o; by rewrite fold_setattr_id).
  clearbody o.
  case_decide; [unfold_M; rewrite get_user_by_id_eq; by exists (λ r, r)|].
  unfold models.update.
  destruct (i_email o) as [|e|]; try (by exists (λ r, r)).
  destruct (i_hashed_password o) as [|h|]; try (by exists (λ r, r)).
  case_decide; [by exists (λ r, r)|].
  rewrite get_user_by_id_eq. cbn [snd rows].
  eexists. split; [reflexivity|]. split.
  - intros r. by case_decide.
  - intros r Hr. rewrite decide_False; [done | congruence].
Qed.

(** X11: whatever [update_user] is asked and however it ends, a lookup of
    another id finds what it found before, and the table keeps its number
    of rows and their ids. *)
Theorem update_user_other_rows (user_id other_id : Z)
    (user_update : schemas.UserUpdate) (db : Db) :
  other_id ≠ user_id →
  let db' := (crud.update_user user_id user_update db).2 in
  (crud.get_user_by_id other_id db').1 = (crud.get_user_by_id other_id db).1
  ∧ length (rows db') = length (rows db)
  ∧ models.id <$> rows db' = models.id <$> rows db.
Proof.
  intros Hne db'.
  destruct (crud_update_user_rows user_id user_update db) as (f & Hrows & Hid & Hother).
  fold db' in Hrows. split; [|split].
  - rewrite !get_user_by_id_eq. cbn [fst]. f_equal. rewrite Hrows.
    rewrite head_filter_id_fmap by done.
    destruct (head _) as [v|] eqn:E; [|done]. cbn. f_equal.
    apply (head_filter_Some (λ v, models.id v = other_id)) in E as [_ Hv].
    apply Hother. congruence.
  - by rewrite Hrows, length_fmap.
  - rewrite Hrows, <- list_fmap_compose. apply list_fmap_ext. intros ? r _. apply Hid.
Qed.

Lemma update_user_other_rows_witness :
  let db' := (crud.update_user 2 new_email_and_password db2).2 in
  (crud.get_user_by_id 1 db').1 = (crud.get_user_by_id 1 db2).1
  ∧ length (rows db') = length (rows db2)
  ∧ models.id <$> rows db' = models.id <$> rows db2.
Proof. apply (update_user_other_rows 2 1 new_email_and_password db2). lia. Defined.

(** X12: in a store that keeps the table invariants, after a user's email
    has been changed to one no row had, the old email finds nobody and the
    new email finds the user, under the id it had. *)
Theorem lookup_after_email_change (db : Db) (u : User) (new_email : string) :
  wf db → u ∈ rows db →
  (∀ r, r ∈ rows db → models.email r ≠ new_email) →
  ∃ u' db',
    crud.update_user (models.id u) (set_email new_email) db = (Ok (Some u'), db')
    ∧ models.id u' = models.id u
    ∧ models.email u' = new_email
    ∧ crud.get_user_by_email (models.email u) db' = (Ok None, db')
    ∧ crud.get_user_by_email new_email db' = (Ok (Some u'), db').
Proof.
  intros Hwf Hu Hfresh.
  destruct (crud_update_user_ok (set_email new_email) db u Hwf Hu)
    as (db' & Hupd & _ & Hwf' & _ & Hrows).
  { split; discriminate. }
  { intros e r [= <-] Hr He. by destruct (Hfresh r Hr). }
  pose proof (stored_update_fields (set_email new_email) (clock db) u)
    as (Hid & _ & He & _).
  cbv zeta in Hid, He. unfold spec_update, set_email in He.
  cbn [models.email schemas.uu_email] in He.
  set (u' := stored_update _ (clock db) u) in *.
  exists u', db'. split; [exact Hupd|].
  split; [exact Hid|]. split; [exact He|]. split.
  - apply get_user_by_email_None. intros v Hv Hev.
    apply Hrows in Hv as [->|[Hv Hvu]].
    + rewrite He in Hev. apply (Hfresh u Hu). by symmetry.
    + apply Hvu. by apply (NoDup_fmap_eq models.email (rows db)); [apply Hwf| | |].
  - rewrite <- He.
    apply (wf_lookup_email db' u' Hwf'). apply Hrows. by left.
Qed.

Lemma lookup_after_email_change_witness :
  ∃ u' db',
    crud.update_user 2 (set_email "c@x.com") db2 = (Ok (Some u'), db')
    ∧ models.id u' = 2
    ∧ models.email u' = "c@x.com"
    ∧ crud.get_user_by_email "b@x.com" db' = (Ok None, db')
    ∧ crud.get_user_by_email "c@x.com" db' = (Ok (Some u'), db').
Proof.
  apply (lookup_after_email_change db2
           (mkUser 2 "b@x.com" (crud.hash_password "p2") true 5 None) "c@x.com").
  - apply db2_wf.
  - vm_compute. right. left.
  - intros r Hr. apply db2_rows in Hr as [-> | ->]; discriminate.
Defined.

(** X13: in a store that keeps the table invariants, an update through the
    route that sets a user's email to the email the user already has is
    not refused as a duplicate: the answer is 200 with the user. *)
Theorem put_user_own_email (db : Db) (u : User) :
  wf db → u ∈ rows db →
  ∃ u' db',
    app.PUT_user (models.id u) (set_email (models.email u)) db
    = (mkResponse 200 (app.as_User u'), db')
    ∧ models.email u' = models.email u
    ∧ models.id u' = models.id u.
Proof.
  intros Hwf Hu.
  destruct (put_user_ok (set_email (models.email u)) db u Hwf Hu)
    as (db' & Hput & _).
  { split; discriminate. }
  { intros e r [= <-] Hr He. by apply (wf_email_owner db). }
  pose proof (stored_update_fields (set_email (models.email u)) (clock db) u)
    as (Hid & _ & He & _).
  do 2 eexists. split; [exact Hput|]. split; [exact He | exact Hid].
Qed.

Lemma put_user_own_email_witness :
  ∃ u' db',
    app.PUT_user 2 (set_email "b@x.com") db2 = (mkResponse 200 (app.as_User u'), db')
    ∧ models.email u' = "b@x.com"
    ∧ models.id u' = 2.
Proof.
  apply (put_user_own_email db2
           (mkUser 2 "b@x.com" (crud.hash_password "p2") true 5 None)).
  - apply db2_wf.
  - vm_compute. right. left.
Defined.

(** X14: in a store that keeps the table invariants, an update through the
    route of an existing user whose body sets [password] to null, and whose
    email is not taken by another user, answers 500: hashing the null
    raises, and nothing is written. *)
Theorem put_user_null_password (db : Db) (u : User) (user_update : schemas.UserUpdate) :
  wf db → u ∈ rows db →
  schemas.uu_password user_update = schemas.Provided None →
  ¬ used_by_other (models.id u) user_update db →
  app.PUT_user (models.id u) user_update db = (server_error, db).
Proof.
  intros Hwf Hu Hp Hfree.
  unfold app.PUT_user, respond, main.update_user. unfold_M.
  destruct (check_email_spec (models.id u) user_update db Hwf) as [[Hused _]|[_ ->]];
    [done|].
  unfold crud.update_user. unfold_M. rewrite (wf_lookup_id db u Hwf Hu).
  destruct user_update as [ue up ua]. cbn in Hp. subst up.
  by destruct ue as [|[e|]], ua as [a|].
Qed.

Lemma put_user_null_password_witness :
  app.PUT_user 2 null_password db2 = (server_error, db2).
Proof.
  apply (put_user_null_password db2
           (mkUser 2 "b@x.com" (crud.hash_password "p2") true 5 None) null_password).
  - apply db2_wf.
  - vm_compute. right. left.
  - reflexivity.
  - intros (e & r & He & _). discriminate He.
Defined.

(** ** The store over time *)

(** X15: in every store reached from the empty one by requests to the
    routes, by calls of the crud functions and by time passing, no two rows
    have the same email and no two rows have the same id; the rows stand in
    ascending order of their ids, below the next id to assign. *)
Theorem reachable_rows_unique (db : Db) :
  reachable db →
  (∀ u v, u ∈ rows db → v ∈ rows db → models.email u = models.email v → u = v)
  ∧ (∀ u v, u ∈ rows db → v ∈ rows db → models.id u = models.id v → u = v)
  ∧ StronglySorted Z.lt (models.id <$> rows db)
  ∧ (∀ u, u ∈ rows db → models.id u < next_id db).
Proof.
  intros Hreach. pose proof (reachable_wf db Hreach) as Hwf.
  split; [|split; [|split]].
  - intros u v Hu Hv. by apply (NoDup_fmap_eq models.email (rows db)); [apply Hwf| |].
  - intros u v Hu Hv. by apply (NoDup_fmap_eq models.id (rows db)); [apply wf_ids| |].
  - apply Hwf.
  - destruct Hwf as [_ _ Hn _]. by rewrite Forall_forall in Hn.
Qed.

Lemma reachable_rows_unique_witness :
  (∀ u v, u ∈ rows db2 → v ∈ rows db2 → models.email u = models.email v → u = v)
  ∧ (∀ u v, u ∈ rows db2 → v ∈ rows db2 → models.id u = models.id v → u = v)
  ∧ StronglySorted Z.lt (models.id <$> rows db2)
  ∧ (∀ u, u ∈ rows db2 → models.id u < next_id db2).
Proof. apply (reachable_rows_unique db2). apply db2_reachable. Defined.

(** ** The digest *)

Lemma hex_digit_lower (x : Z) : lower_hex (SHA256.hex_digit (x mod 16)).
Proof.
  pose proof (Z.mod_pos_bound x 16) as Hb.
  assert (Hc : x mod 16 = 0 ∨ x mod 16 = 1 ∨ x mod 16 = 2 ∨ x mod 16 = 3
               ∨ x mod 16 = 4 ∨ x mod 16 = 5 ∨ x mod 16 = 6 ∨ x mod 16 = 7
               ∨ x mod 16 = 8 ∨ x mod 16 = 9 ∨ x mod 16 = 10 ∨ x mod 16 = 11
               ∨ x mod 16 = 12 ∨ x mod 16 = 13 ∨ x mod 16 = 14 ∨ x mod 16 = 15)
    by lia.
  unfold lower_hex.
  repeat (destruct Hc as [Hc|Hc]);
    rewrite Hc; vm_compute;
    repeat first [left | right].
Qed.

Lemma hash_password_alphabet (password : string) :
  Forall lower_hex (list_ascii_of_string (crud.hash_password password)).
Proof.
  unfold crud.hash_password, SHA256.hexdigest.
  generalize (SHA256.digest (SHA256.encode password)). intros st.
  unfold SHA256.hex_state, SHA256.hex_word. cbn [list_ascii_of_string].
  repeat (apply Forall_cons; split; [apply hex_digit_lower|]).
  apply Forall_nil_2.
Qed.

(** X16: the digest [hash_password] returns is 64 characters long and
    made of the characters 0-9 and a-f only, whatever the password. *)
Theorem hash_password_format (password : string) :
  String.length (crud.hash_password password) = 64%nat
  ∧ Forall lower_hex (list_ascii_of_string (crud.hash_password password)).
Proof.
  split; [apply hash_password_length | apply hash_password_alphabet].
Qed.

(** X17: the digest differs from the password for every password that is
    not itself a string of exactly 64 characters from 0-9 and a-f: so for
    every password whose number of characters, or of bytes, is not 64, and
    for every password with a character outside that alphabet. *)
Theorem hash_password_differs (password : string) :
  ¬ hex_digest_shaped password → crud.hash_password password ≠ password.
Proof.
  intros Hshape Heq. apply Hshape. rewrite <- Heq. split.
  - apply hash_password_length.
  - apply hash_password_alphabet.
Qed.

Lemma hash_password_differs_witness :
  String.length password_of_64_bytes = 64%nat
  ∧ crud.hash_password password_of_64_bytes ≠ password_of_64_bytes.
Proof.
  split; [reflexivity|].
  apply (hash_password_differs password_of_64_bytes).
  intros [_ Hhex]. revert Hhex.
  apply (bool_decide_eq_false_1 (Forall lower_hex _)). vm_compute. reflexivity.
Defined.

Lemma create_then_find_witness :
  let u := mkUser 1 "a@x.com" (crud.hash_password "p1") true 0 None in
  let db' := (main.create_user alice models.empty).2 in
  crud.get_user_by_email "a@x.com" db' = (Ok (Some u), db')
  ∧ models.hashed_password u = crud.hash_password "p1"
  ∧ crud.verify_password "p1" (models.hashed_password u) = true.
Proof.
  apply (create_then_find alice models.empty
           (mkUser 1 "a@x.com" (crud.hash_password "p1") true 0 None)
           (main.create_user alice models.empty).2).
  left. vm_compute. reflexivity.
Defined.

(** ** After a delete, after an update *)

(** X19: in a store that keeps the table invariants, once a user has been
    deleted through the route, a login with the user's email answers 401
    whatever the password, and a second delete of the id answers 404 and
    changes nothing. *)
Theorem requests_after_delete (db : Db) (u : User) (password : string) :
  wf db → u ∈ rows db →
  ∃ db',
    app.DELETE_user (models.id u) db
    = (mkResponse 200 (JObj [("message", JStr "User deleted successfully")]), db')
    ∧ app.POST_auth_login (schemas.mkUserCreate (models.email u) password) db'
      = (unauthorized, db')
    ∧ app.DELETE_user (models.id u) db' = (not_found, db').
Proof.
  intros Hwf Hu. exists (models.delete (models.id u) db).
  split; [unfold app.DELETE_user, respond; by rewrite main_delete_user_present|].
  assert (Hgone : ∀ v, v ∈ rows (models.delete (models.id u) db) →
                       v ∈ rows db ∧ models.id v ≠ models.id u).
  { intros v Hv. cbn in Hv. apply list_elem_of_filter in Hv. tauto. }
  split.
  - unfold app.POST_auth_login, respond, main.login, crud.authenticate_user.
    unfold_M. cbn [schemas.uc_email schemas.uc_password].
    rewrite (proj2 (get_user_by_email_None (models.email u) _)); [done|].
    intros v Hv He. apply Hgone in Hv as [Hv Hne]. apply Hne.
    by apply (wf_email_owner db).
  - unfold app.DELETE_user, respond, main.delete_user, crud.delete_user. unfold_M.
    rewrite (proj2 (get_user_by_id_None (models.id u) _)); [done|].
    intros v Hv. by apply Hgone in Hv as [_ Hne].
Qed.

Lemma requests_after_delete_witness :
  ∃ db',
    app.DELETE_user 1 db2
    = (mkResponse 200 (JObj [("message", JStr "User deleted successfully")]), db')
    ∧ app.POST_auth_login (schemas.mkUserCreate "a@x.com" "p1") db' = (unauthorized, db')
    ∧ app.DELETE_user 1 db' = (not_found, db').
Proof.
  apply (requests_after_delete db2
           (mkUser 1 "a@x.com" (crud.hash_password "p1") true 0 None) "p1").
  - apply db2_wf.
  - vm_compute. left.
Defined.


